(** * Job orchestration of the training and optimization services

    A shallow embedding of [app/services/training_service.py],
    [app/services/optimization_service.py], the request models of
    [app/models] and the endpoints of [app/api/v1/endpoints], followed by the
    properties of the job life cycle.

    Python values are modelled as follows.
    - [Dict[str, Dict[str, Any]]] (the [active_jobs] table) is a [gmap] from
      strings to a job record; the keys a job dictionary may lack
      ([current_epoch], [completion_time], [error]) are [option] fields.
    - [float] is IEEE binary64, i.e. Rocq's primitive [float]; [int] is [Z].
    - [datetime] is a number of microseconds, [timedelta] their difference.
    - a coroutine is cut at its [await]: one function per atomic segment,
      the suspended coroutine being the data needed to resume it. *)

From Stdlib Require Import ZArith Floats Uint63.
From stdpp Require Import gmap strings list fin_maps.

Set Warnings "-inexact-float,-clear-no-such-hyp".
Local Open Scope Z_scope.

(** ** Python floats *)

(** [float(z)] for an [int]; exact for [|z| <= 2^53], which covers every
    counter of the services (epochs and iterations are at most 1000). *)
Definition float_of_Z (z : Z) : float :=
  if z <? 0 then PrimFloat.opp (PrimFloat.of_uint63 (Uint63.of_Z (- z)))
  else PrimFloat.of_uint63 (Uint63.of_Z z).

(** [a / b] on two [int]s (true division). *)
Definition int_truediv (a b : Z) : float :=
  PrimFloat.div (float_of_Z a) (float_of_Z b).

(** The builtin [max(a, b)]: the first argument unless the second is greater. *)
Definition py_max (a b : float) : float :=
  if PrimFloat.ltb a b then b else a.

(** [timedelta.total_seconds()], the difference being in microseconds. *)
Definition total_seconds (delta : Z) : float := int_truediv delta 1000000.

(** ** Status enumeration ([TrainingStatus], [OptimizationStatus]) *)

Inductive Status := Pending | Running | Completed | Failed | Cancelled.

Global Instance Status_eq_dec : EqDecision Status.
Proof. solve_decision. Defined.

Definition terminal (s : Status) : bool :=
  match s with
  | Completed | Failed | Cancelled => true
  | Pending | Running => false
  end.

(** The arrows of the state graph of the specification. *)
Definition legal_transition (a b : Status) : bool :=
  match a, b with
  | Pending, Running | Running, Completed | Running, Failed
  | Running, Cancelled | Pending, Cancelled => true
  | _, _ => false
  end.

(** ** What a coroutine segment leaves behind *)

Inductive Outcome :=
  | Suspended (i : Z)       (* waiting in [await asyncio.sleep] of iteration [i] *)
  | Returned (b : bool)     (* the coroutine returned [b] *)
  | Raised.                 (* an exception left the coroutine *)

(** ** Responses of the endpoint layer *)

Inductive HTTPResult (A : Type) :=
  | Ok (a : A)
  | HTTPException (code : Z) (detail : string)
  | RequestValidationError.   (* FastAPI's 422, sent before the endpoint runs *)
Arguments Ok {A} a.
Arguments HTTPException {A} code detail.
Arguments RequestValidationError {A}.

(** [str(KeyError(key))]. *)
Definition key_error (key : string) : string := "'" +:+ key +:+ "'".

(** * The training service ([training_service.py]) *)

Module Training.

(** ** Request model ([app/models/training.py]) *)

Inductive ModelType := CODE_REVIEW | RAG | MULTI_HOP | CLASSIFICATION | GENERATION.

(** A validated [TrainingRequest]. The fields no job-handling code reads
    (validation data, hyperparameters, metric names, flags) are left out. *)
Record TrainingRequest := {
  model_type : ModelType;
  training_data : list string;
  epochs : Z;
  batch_size : Z;
  learning_rate : float
}.

(** The JSON body as it reaches FastAPI: a field is absent ([None]) or holds
    a value of its declared type. *)
Record TrainingBody := {
  body_model_type : option ModelType;
  body_training_data : option (list string);
  body_epochs : option Z;
  body_batch_size : option Z;
  body_learning_rate : option float
}.

(** [Field(default=d, ge=lo, le=hi)] on an [int]. *)
Definition int_field (d lo hi : Z) (v : option Z) : option Z :=
  let x := default d v in
  if (lo <=? x) && (x <=? hi) then Some x else None.

(** [Field(default=d, ge=lo, le=hi)] on a [float]. *)
Definition float_field (d lo hi : float) (v : option float) : option float :=
  let x := default d v in
  if PrimFloat.leb lo x && PrimFloat.leb x hi then Some x else None.

(** Construction of a [TrainingRequest] from the body, restricted to the
    five fields of the record: [None] is pydantic's validation error on one
    of them. The model checks six more fields ([validation_data],
    [hyperparameters], [optimization_type], [evaluation_metrics],
    [save_checkpoints], [early_stopping]) that are not embedded: a body
    rejected here is rejected by the code, a body accepted here is accepted
    by the code when those six are absent or well formed. *)
Definition validate (b : TrainingBody) : option TrainingRequest :=
  mt ← body_model_type b;
  td ← body_training_data b;
  ep ← int_field 10 1 100 (body_epochs b);
  bs ← int_field 32 1 128 (body_batch_size b);
  lr ← float_field 1e-5 1e-7 1e-2 (body_learning_rate b);
  Some {| model_type := mt; training_data := td; epochs := ep;
          batch_size := bs; learning_rate := lr |}.

(** ** Job dictionaries *)

(** The value of the ["metrics"] key once an epoch has finished; the empty
    dictionary [{}] it starts with is [None]. *)
Record EpochMetrics := { loss : float; accuracy : float; epoch : Z }.

Record Job := {
  status : Status;
  start_time : Z;
  request : TrainingRequest;
  progress : float;
  metrics : option EpochMetrics;
  current_epoch : option Z;
  completion_time : option Z;
  error : option string
}.

Definition set_status (s : Status) (j : Job) : Job :=
  {| status := s; start_time := start_time j; request := request j;
     progress := progress j; metrics := metrics j;
     current_epoch := current_epoch j;
     completion_time := completion_time j; error := error j |}.

Definition set_completion_time (t : Z) (j : Job) : Job :=
  {| status := status j; start_time := start_time j; request := request j;
     progress := progress j; metrics := metrics j;
     current_epoch := current_epoch j;
     completion_time := Some t; error := error j |}.

Definition set_error (msg : string) (j : Job) : Job :=
  {| status := status j; start_time := start_time j; request := request j;
     progress := progress j; metrics := metrics j;
     current_epoch := current_epoch j;
     completion_time := completion_time j; error := Some msg |}.

(** The three assignments that close an epoch. *)
Definition set_epoch (p : float) (e : Z) (m : EpochMetrics) (j : Job) : Job :=
  {| status := status j; start_time := start_time j; request := request j;
     progress := p; metrics := Some m; current_epoch := Some e;
     completion_time := completion_time j; error := error j |}.

(** [self.active_jobs]. *)
Abbreviation Registry := (gmap string Job).

(** ** [train_model], one function per atomic segment *)

(** The [except Exception as e] block. Its own subscript raises [KeyError]
    when the job is not in the table. *)
Definition on_exception (training_id msg : string) (jobs : Registry)
  : Registry * Outcome :=
  match jobs !! training_id with
  | Some job =>
      (<[training_id := set_error msg (set_status Failed job)]> jobs,
       Returned false)
  | None => (jobs, Raised)
  end.

(** From the head of the [for] loop at index [epoch] up to the next
    [await], or through the code after the loop. [now] is the clock read by
    [datetime.utcnow()] when the job is marked completed. *)
Definition loop_head (now : Z) (training_id : string) (req : TrainingRequest)
    (epoch : Z) (jobs : Registry) : Registry * Outcome :=
  match jobs !! training_id with
  | None => on_exception training_id (key_error training_id) jobs
  | Some job =>
      if epoch <? epochs req then
        if decide (status job = Cancelled) then (jobs, Returned false)
        else (jobs, Suspended epoch)
      else
        (<[training_id := set_completion_time now (set_status Completed job)]> jobs,
         Returned true)
  end.

(** First segment: the record is written with status [running], then the
    loop is entered. The [int] 0 of ["progress"] is the float 0. *)
Definition train_model_start (t_start t_done : Z) (training_id : string)
    (req : TrainingRequest) (jobs : Registry) : Registry * Outcome :=
  let job := {| status := Running; start_time := t_start; request := req;
                progress := 0; metrics := None; current_epoch := None;
                completion_time := None; error := None |} in
  loop_head t_done training_id req 0 (<[training_id := job]> jobs).

(** Segment after [asyncio.sleep] of iteration [epoch] has returned: the
    epoch is recorded and the loop goes on. *)
Definition train_model_resume (now : Z) (training_id : string)
    (req : TrainingRequest) (epoch : Z) (jobs : Registry)
  : Registry * Outcome :=
  let total_epochs := epochs req in
  let p := int_truediv (epoch + 1) total_epochs in
  match jobs !! training_id with
  | None => on_exception training_id (key_error training_id) jobs
  | Some job =>
      let m := {| loss := PrimFloat.sub 1.0 (PrimFloat.mul p 0.8);
                  accuracy := PrimFloat.mul p 0.9;
                  epoch := epoch + 1 |} in
      loop_head now training_id req (epoch + 1)
        (<[training_id := set_epoch p (epoch + 1) m job]> jobs)
  end.

(** ** The read and cancel operations *)

Record TrainingProgress := {
  p_training_id : string;
  p_status : Status;
  p_epoch : Z;
  p_total_epochs : Z;
  p_loss : float;
  p_accuracy : float;
  p_learning_rate : float
}.

Definition get_training_progress (training_id : string) (jobs : Registry)
  : option TrainingProgress :=
  match jobs !! training_id with
  | None => None
  | Some job =>
      Some {| p_training_id := training_id;
              p_status := status job;
              p_epoch := from_option epoch 0 (metrics job);
              p_total_epochs := epochs (request job);
              p_loss := from_option loss 0.0%float (metrics job);
              p_accuracy := from_option accuracy 0.0%float (metrics job);
              p_learning_rate := learning_rate (request job) |}
  end.

Record JobInfo := {
  i_training_id : string;
  i_status : Status;
  i_model_type : ModelType;
  i_start_time : Z;
  i_progress : float;
  i_current_epoch : Z;
  i_total_epochs : Z
}.

(** The entries of the table; [map_to_list] fixes an order of its own, the
    dictionary's is the insertion order. *)
Definition list_training_jobs (jobs : Registry) : list JobInfo :=
  (λ kv, {| i_training_id := kv.1;
            i_status := status kv.2;
            i_model_type := model_type (request kv.2);
            i_start_time := start_time kv.2;
            i_progress := progress kv.2;
            i_current_epoch := default 0 (current_epoch kv.2);
            i_total_epochs := epochs (request kv.2) |}) <$> map_to_list jobs.

Definition cancel_training (training_id : string) (jobs : Registry)
  : Registry * bool :=
  match jobs !! training_id with
  | None => (jobs, false)
  | Some job =>
      if decide (status job = Running)
      then (<[training_id := set_status Cancelled job]> jobs, true)
      else (jobs, false)
  end.

(** ** The service with its background tasks

    The event loop runs one segment at a time. A state is the table together
    with the coroutines suspended in [await asyncio.sleep], keyed by job id:
    the request and the loop index they resume with. *)

Record Sys := {
  jobs : Registry;
  tasks : gmap string (TrainingRequest * Z)
}.

Definition init : Sys := {| jobs := ∅; tasks := ∅ |}.

Inductive Event :=
  | Start (t_start t_done : Z) (training_id : string) (req : TrainingRequest)
      (* the background task enters [train_model] *)
  | Wake (now : Z) (training_id : string)
      (* [asyncio.sleep] returns to the coroutine *)
  | StepError (training_id msg : string)
      (* the awaited step raises [Exception(msg)]; [asyncio.sleep] does not,
         a real step may: the schedules with this event are a superset of
         the behaviours of the code as it stands *)
  | Cancel (training_id : string).
      (* a call of [cancel_training] *)

(** The suspended coroutines after a segment of the runner of [training_id]. *)
Definition settle (training_id : string) (req : TrainingRequest) (o : Outcome)
    (ts : gmap string (TrainingRequest * Z))
  : gmap string (TrainingRequest * Z) :=
  match o with
  | Suspended i => <[training_id := (req, i)]> ts
  | Returned _ | Raised => delete training_id ts
  end.

(** One event. Training ids are [uuid.uuid4()] values: a runner is started
    on an id the table has never seen. *)
Definition step (e : Event) (s : Sys) : option Sys :=
  match e with
  | Start t_start t_done training_id req =>
      match jobs s !! training_id, tasks s !! training_id with
      | None, None =>
          let r := train_model_start t_start t_done training_id req (jobs s) in
          Some {| jobs := r.1; tasks := settle training_id req r.2 (tasks s) |}
      | _, _ => None
      end
  | Wake now training_id =>
      match tasks s !! training_id with
      | Some (req, i) =>
          let r := train_model_resume now training_id req i (jobs s) in
          Some {| jobs := r.1; tasks := settle training_id req r.2 (tasks s) |}
      | None => None
      end
  | StepError training_id msg =>
      match tasks s !! training_id with
      | Some (req, i) =>
          let r := on_exception training_id msg (jobs s) in
          Some {| jobs := r.1; tasks := settle training_id req r.2 (tasks s) |}
      | None => None
      end
  | Cancel training_id =>
      Some {| jobs := (cancel_training training_id (jobs s)).1; tasks := tasks s |}
  end.

Fixpoint run (evs : list Event) (s : Sys) : option Sys :=
  match evs with
  | [] => Some s
  | e :: evs' =>
      match step e s with
      | Some s' => run evs' s'
      | None => None
      end
  end.

(** ** Invariant of the reachable states *)

(** The job an event addresses. *)
Definition target (e : Event) : string :=
  match e with
  | Start _ _ id _ | Wake _ id | StepError id _ | Cancel id => id
  end.

(** [current_epoch], with the default [list_training_jobs] reads it with. *)
Definition epochs_done (j : Job) : Z := default 0 (current_epoch j).

(** What holds of the record of a job and of its suspended coroutine. *)
Definition job_inv (oj : option Job) (ot : option (TrainingRequest * Z))
  : Prop :=
  match oj with
  | None => ot = None
  | Some j =>
      status j ≠ Pending ∧
      (is_Some (completion_time j) ↔ status j = Completed) ∧
      (is_Some (error j) ↔ status j = Failed) ∧
      from_option epoch 0 (metrics j) = epochs_done j ∧
      match ot with
      | Some (req, i) =>
          request j = req ∧ 0 ≤ i < epochs req ∧ epochs_done j = i ∧
          (status j = Running ∨ status j = Cancelled)
      | None =>
          terminal (status j) = true ∧
          0 ≤ epochs_done j ≤ Z.max 0 (epochs (request j)) ∧
          (status j = Completed → epochs_done j = Z.max 0 (epochs (request j)))
      end
  end.

Definition inv (s : Sys) : Prop :=
  ∀ id, job_inv (jobs s !! id) (tasks s !! id).

(** A request and a body used as concrete inputs below. *)
Definition sample_request (n : Z) : TrainingRequest :=
  {| model_type := CODE_REVIEW; training_data := []; epochs := n;
     batch_size := 32; learning_rate := 1e-5 |}.

Definition sample_body (n : Z) : TrainingBody :=
  {| body_model_type := Some CODE_REVIEW; body_training_data := Some [];
     body_epochs := Some n; body_batch_size := None;
     body_learning_rate := None |}.

End Training.

(** * The optimization service ([optimization_service.py]) *)

Module Optimization.

(** ** Request model ([app/models/optimization.py]) *)

Inductive OptimizationAlgorithm :=
  | BOOTSTRAP_FEW_SHOT | RANDOM_SEARCH | BAYESIAN_OPTIMIZATION
  | GENETIC_ALGORITHM | REINFORCEMENT_LEARNING.

(** A validated [OptimizationRequest], without the fields no job-handling
    code reads. *)
Record OptimizationRequest := {
  target_module : string;
  optimization_algorithm : OptimizationAlgorithm;
  training_data : list string;
  max_iterations : Z
}.

Record OptimizationBody := {
  body_target_module : option string;
  body_optimization_algorithm : option OptimizationAlgorithm;
  body_training_data : option (list string);
  body_max_iterations : option Z
}.

(** Construction of an [OptimizationRequest] from the body, restricted to
    the four fields of the record; the six other fields of the model
    ([validation_data], [optimization_parameters], [evaluation_metric],
    [constraints], [early_stopping], [save_intermediate_results]) are not
    embedded.
    A body rejected here is rejected by the code; a body accepted here is
    accepted by the code when the other fields are absent or well formed. *)
Definition validate (b : OptimizationBody) : option OptimizationRequest :=
  tm ← body_target_module b;
  alg ← body_optimization_algorithm b;
  td ← body_training_data b;
  mi ← Training.int_field 100 1 1000 (body_max_iterations b);
  Some {| target_module := tm; optimization_algorithm := alg;
          training_data := td; max_iterations := mi |}.

(** ** Job dictionaries *)

Record HistoryEntry := {
  iteration : Z;
  score : float;
  h_best_score : float;
  improvement : float
}.

Record Job := {
  status : Status;
  start_time : Z;
  request : OptimizationRequest;
  progress : float;
  best_score : float;
  baseline_score : float;
  history : list HistoryEntry;
  completion_time : option Z;
  error : option string
}.

Definition set_status (s : Status) (j : Job) : Job :=
  {| status := s; start_time := start_time j; request := request j;
     progress := progress j; best_score := best_score j;
     baseline_score := baseline_score j; history := history j;
     completion_time := completion_time j; error := error j |}.

Definition set_completion_time (t : Z) (j : Job) : Job :=
  {| status := status j; start_time := start_time j; request := request j;
     progress := progress j; best_score := best_score j;
     baseline_score := baseline_score j; history := history j;
     completion_time := Some t; error := error j |}.

Definition set_error (msg : string) (j : Job) : Job :=
  {| status := status j; start_time := start_time j; request := request j;
     progress := progress j; best_score := best_score j;
     baseline_score := baseline_score j; history := history j;
     completion_time := completion_time j; error := Some msg |}.

(** The assignments and the [append] that close an iteration. *)
Definition set_iteration (p best : float) (h : HistoryEntry) (j : Job) : Job :=
  {| status := status j; start_time := start_time j; request := request j;
     progress := p; best_score := best;
     baseline_score := baseline_score j; history := history j ++ [h];
     completion_time := completion_time j; error := error j |}.

Abbreviation Registry := (gmap string Job).

(** ** [optimize_module], one function per atomic segment *)

Definition on_exception (optimization_id msg : string) (jobs : Registry)
  : Registry * Outcome :=
  match jobs !! optimization_id with
  | Some job =>
      (<[optimization_id := set_error msg (set_status Failed job)]> jobs,
       Returned false)
  | None => (jobs, Raised)
  end.

Definition loop_head (now : Z) (optimization_id : string)
    (req : OptimizationRequest) (iteration : Z) (jobs : Registry)
  : Registry * Outcome :=
  match jobs !! optimization_id with
  | None => on_exception optimization_id (key_error optimization_id) jobs
  | Some job =>
      if iteration <? max_iterations req then
        if decide (status job = Cancelled) then (jobs, Returned false)
        else (jobs, Suspended iteration)
      else
        (<[optimization_id := set_completion_time now (set_status Completed job)]> jobs,
         Returned true)
  end.

Definition optimize_module_start (t_start t_done : Z) (optimization_id : string)
    (req : OptimizationRequest) (jobs : Registry) : Registry * Outcome :=
  let job := {| status := Running; start_time := t_start; request := req;
                progress := 0; best_score := 0.0; baseline_score := 0.5;
                history := []; completion_time := None; error := None |} in
  loop_head t_done optimization_id req 0 (<[optimization_id := job]> jobs).

Definition optimize_module_resume (now : Z) (optimization_id : string)
    (req : OptimizationRequest) (iteration : Z) (jobs : Registry)
  : Registry * Outcome :=
  let total_iterations := max_iterations req in
  let p := int_truediv (iteration + 1) total_iterations in
  match jobs !! optimization_id with
  | None => on_exception optimization_id (key_error optimization_id) jobs
  | Some job =>
      let current_score :=
        PrimFloat.add (PrimFloat.add 0.5 (PrimFloat.mul p 0.4))
                      (PrimFloat.mul (float_of_Z iteration) 0.001) in
      let best := py_max current_score (best_score job) in
      let history_entry :=
        {| iteration := iteration + 1; score := current_score;
           h_best_score := best;
           improvement := PrimFloat.sub best (baseline_score job) |} in
      loop_head now optimization_id req (iteration + 1)
        (<[optimization_id := set_iteration p best history_entry job]> jobs)
  end.

(** ** The read, cancel and result operations *)

Record OptimizationProgress := {
  p_optimization_id : string;
  p_status : Status;
  p_iteration : Z;
  p_total_iterations : Z;
  p_current_score : float;
  p_best_score : float;
  p_improvement : float
}.

Definition get_optimization_progress (optimization_id : string)
    (jobs : Registry) : option OptimizationProgress :=
  match jobs !! optimization_id with
  | None => None
  | Some job =>
      let current_iteration := Z.of_nat (length (history job)) in
      let lst := last (history job) in
      Some {| p_optimization_id := optimization_id;
              p_status := status job;
              p_iteration := current_iteration;
              p_total_iterations := max_iterations (request job);
              p_current_score := from_option score 0.0%float lst;
              p_best_score := from_option h_best_score 0.0%float lst;
              p_improvement := from_option improvement 0.0%float lst |}
  end.

Record JobInfo := {
  i_optimization_id : string;
  i_status : Status;
  i_target_module : string;
  i_algorithm : OptimizationAlgorithm;
  i_start_time : Z;
  i_progress : float;
  i_best_score : float
}.

Definition list_optimization_jobs (jobs : Registry) : list JobInfo :=
  (λ kv, {| i_optimization_id := kv.1;
            i_status := status kv.2;
            i_target_module := target_module (request kv.2);
            i_algorithm := optimization_algorithm (request kv.2);
            i_start_time := start_time kv.2;
            i_progress := progress kv.2;
            i_best_score := best_score kv.2 |}) <$> map_to_list jobs.

Definition cancel_optimization (optimization_id : string) (jobs : Registry)
  : Registry * bool :=
  match jobs !! optimization_id with
  | None => (jobs, false)
  | Some job =>
      if decide (status job = Running)
      then (<[optimization_id := set_status Cancelled job]> jobs, true)
      else (jobs, false)
  end.

(** [OptimizationResult], without the constant [best_parameters]. *)
Record OptimizationResult := {
  r_optimization_id : string;
  final_score : float;
  r_baseline_score : float;
  improvement_percentage : float;
  optimization_time : float;
  iterations_completed : Z;
  optimization_history : list HistoryEntry
}.

(** A call that may raise; [exc] is [str(e)] of the exception. *)
Inductive Raises (A : Type) :=
  | Return (a : A)
  | Raise (exc : string).
Arguments Return {A} a.
Arguments Raise {A} exc.

(** [get_optimization_results]: [None] for an unknown or unfinished job;
    the subscript [job["completion_time"]] and the float division raise. *)
Definition get_optimization_results (optimization_id : string)
    (jobs : Registry) : Raises (option OptimizationResult) :=
  match jobs !! optimization_id with
  | None => Return None
  | Some job =>
      if decide (status job = Completed) then
        let baseline := baseline_score job in
        let final := best_score job in
        if PrimFloat.eqb baseline 0 then Raise "float division by zero"
        else
          let pct :=
            PrimFloat.mul (PrimFloat.div (PrimFloat.sub final baseline) baseline)
                          100 in
          match completion_time job with
          | None => Raise (key_error "completion_time")
          | Some t_end =>
              Return (Some
                {| r_optimization_id := optimization_id;
                   final_score := final;
                   r_baseline_score := baseline;
                   improvement_percentage := pct;
                   optimization_time := total_seconds (t_end - start_time job);
                   iterations_completed := Z.of_nat (length (history job));
                   optimization_history := history job |})
          end
      else Return None
  end.

(** ** The service with its background tasks *)

Record Sys := {
  jobs : Registry;
  tasks : gmap string (OptimizationRequest * Z)
}.

Definition init : Sys := {| jobs := ∅; tasks := ∅ |}.

Inductive Event :=
  | Start (t_start t_done : Z) (optimization_id : string)
      (req : OptimizationRequest)
  | Wake (now : Z) (optimization_id : string)
  | StepError (optimization_id msg : string)
  | Cancel (optimization_id : string).

Definition settle (optimization_id : string) (req : OptimizationRequest)
    (o : Outcome) (ts : gmap string (OptimizationRequest * Z))
  : gmap string (OptimizationRequest * Z) :=
  match o with
  | Suspended i => <[optimization_id := (req, i)]> ts
  | Returned _ | Raised => delete optimization_id ts
  end.

Definition step (e : Event) (s : Sys) : option Sys :=
  match e with
  | Start t_start t_done optimization_id req =>
      match jobs s !! optimization_id, tasks s !! optimization_id with
      | None, None =>
          let r :=
            optimize_module_start t_start t_done optimization_id req (jobs s) in
          Some {| jobs := r.1; tasks := settle optimization_id req r.2 (tasks s) |}
      | _, _ => None
      end
  | Wake now optimization_id =>
      match tasks s !! optimization_id with
      | Some (req, i) =>
          let r := optimize_module_resume now optimization_id req i (jobs s) in
          Some {| jobs := r.1; tasks := settle optimization_id req r.2 (tasks s) |}
      | None => None
      end
  | StepError optimization_id msg =>
      match tasks s !! optimization_id with
      | Some (req, i) =>
          let r := on_exception optimization_id msg (jobs s) in
          Some {| jobs := r.1; tasks := settle optimization_id req r.2 (tasks s) |}
      | None => None
      end
  | Cancel optimization_id =>
      Some {| jobs := (cancel_optimization optimization_id (jobs s)).1;
              tasks := tasks s |}
  end.

Fixpoint run (evs : list Event) (s : Sys) : option Sys :=
  match evs with
  | [] => Some s
  | e :: evs' =>
      match step e s with
      | Some s' => run evs' s'
      | None => None
      end
  end.

(** ** Invariant of the reachable states *)

Definition target (e : Event) : string :=
  match e with
  | Start _ _ id _ | Wake _ id | StepError id _ | Cancel id => id
  end.

(** [len(history)], the iteration count [get_optimization_progress] reports. *)
Definition steps_done (j : Job) : Z := Z.of_nat (length (history j)).

(** The entries of a history are numbered 1, 2, ... without a gap. *)
Definition numbered (h : list HistoryEntry) : Prop :=
  iteration <$> h = seqZ 1 (Z.of_nat (length h)).

Definition job_inv (oj : option Job) (ot : option (OptimizationRequest * Z))
  : Prop :=
  match oj with
  | None => ot = None
  | Some j =>
      status j ≠ Pending ∧
      (is_Some (completion_time j) ↔ status j = Completed) ∧
      (is_Some (error j) ↔ status j = Failed) ∧
      baseline_score j = 0.5%float ∧
      numbered (history j) ∧
      match ot with
      | Some (req, i) =>
          request j = req ∧ 0 ≤ i < max_iterations req ∧ steps_done j = i ∧
          (status j = Running ∨ status j = Cancelled)
      | None =>
          terminal (status j) = true ∧
          0 ≤ steps_done j ≤ Z.max 0 (max_iterations (request j)) ∧
          (status j = Completed →
           steps_done j = Z.max 0 (max_iterations (request j)))
      end
  end.

Definition inv (s : Sys) : Prop :=
  ∀ id, job_inv (jobs s !! id) (tasks s !! id).

Definition sample_request (n : Z) : OptimizationRequest :=
  {| target_module := "reviewer"; optimization_algorithm := RANDOM_SEARCH;
     training_data := []; max_iterations := n |}.

Definition sample_body (n : Z) : OptimizationBody :=
  {| body_target_module := Some "reviewer";
     body_optimization_algorithm := Some RANDOM_SEARCH;
     body_training_data := Some []; body_max_iterations := Some n |}.

End Optimization.

(** * The endpoint layer ([api/v1/endpoints/training.py], [optimization.py])

    Every endpoint receives its service from a [Depends] on
    [get_training_service] or [get_optimization_service], which builds a new
    service object for the request. A service object outlives its request
    only through the background task [start_*] hands it to. The state of the
    application is therefore the list of these service objects, each with the
    call it still has to make. *)

Module Endpoints.

(** [TrainingService()]: [__init__] sets [active_jobs] to [{}]. *)
Definition get_training_service : Training.Sys := Training.init.

(** [OptimizationService()]. *)
Definition get_optimization_service : Optimization.Sys := Optimization.init.

Record TrainingInstance := {
  t_service : Training.Sys;
  t_scheduled : option (string * Training.TrainingRequest)
}.

Record OptimizationInstance := {
  o_service : Optimization.Sys;
  o_scheduled : option (string * Optimization.OptimizationRequest)
}.

Record App := {
  training : list TrainingInstance;
  optimization : list OptimizationInstance
}.

Definition add_training (i : TrainingInstance) (app : App) : App :=
  {| training := training app ++ [i]; optimization := optimization app |}.

Definition add_optimization (i : OptimizationInstance) (app : App) : App :=
  {| training := training app; optimization := optimization app ++ [i] |}.

Record TrainingResponse := {
  tr_training_id : string;
  tr_status : Status;
  tr_model_type : Training.ModelType;
  tr_start_time : Z;
  tr_total_epochs : Z
}.

Record OptimizationResponse := {
  or_optimization_id : string;
  or_status : Status;
  or_target_module : string;
  or_algorithm : Optimization.OptimizationAlgorithm;
  or_start_time : Z;
  or_total_iterations : Z
}.

(** [POST /start]. [uuid] is the value of [uuid.uuid4()], [now] the clock. *)
Definition start_training (uuid : string) (now : Z)
    (body : Training.TrainingBody) (app : App)
  : HTTPResult TrainingResponse * App :=
  match Training.validate body with
  | None => (RequestValidationError, app)
  | Some request =>
      let training_service := get_training_service in
      let training_id := uuid in
      let response :=
        {| tr_training_id := training_id; tr_status := Pending;
           tr_model_type := Training.model_type request;
           tr_start_time := now;
           tr_total_epochs := Training.epochs request |} in
      (Ok response,
       add_training {| t_service := training_service;
                       t_scheduled := Some (training_id, request) |} app)
  end.

(** [GET /status/{training_id}]. *)
Definition get_training_status (training_id : string) (app : App)
  : HTTPResult Training.TrainingProgress * App :=
  let training_service := get_training_service in
  match Training.get_training_progress training_id
          (Training.jobs training_service) with
  | None => (HTTPException 404 "Training job not found", app)
  | Some progress => (Ok progress, app)
  end.

(** [GET /jobs]. *)
Definition list_training_jobs (app : App)
  : HTTPResult (list Training.JobInfo) * App :=
  let training_service := get_training_service in
  (Ok (Training.list_training_jobs (Training.jobs training_service)), app).

(** [POST /cancel/{training_id}]. *)
Definition cancel_training (training_id : string) (app : App)
  : HTTPResult string * App :=
  let training_service := get_training_service in
  if (Training.cancel_training training_id
        (Training.jobs training_service)).2
  then (Ok ("Training job " +:+ training_id +:+ " cancelled successfully"), app)
  else (HTTPException 404 "Training job not found or already completed", app).

Definition start_optimization (uuid : string) (now : Z)
    (body : Optimization.OptimizationBody) (app : App)
  : HTTPResult OptimizationResponse * App :=
  match Optimization.validate body with
  | None => (RequestValidationError, app)
  | Some request =>
      let optimization_service := get_optimization_service in
      let optimization_id := uuid in
      let response :=
        {| or_optimization_id := optimization_id; or_status := Pending;
           or_target_module := Optimization.target_module request;
           or_algorithm := Optimization.optimization_algorithm request;
           or_start_time := now;
           or_total_iterations := Optimization.max_iterations request |} in
      (Ok response,
       add_optimization {| o_service := optimization_service;
                           o_scheduled := Some (optimization_id, request) |} app)
  end.

Definition get_optimization_status (optimization_id : string) (app : App)
  : HTTPResult Optimization.OptimizationProgress * App :=
  let optimization_service := get_optimization_service in
  match Optimization.get_optimization_progress optimization_id
          (Optimization.jobs optimization_service) with
  | None => (HTTPException 404 "Optimization job not found", app)
  | Some progress => (Ok progress, app)
  end.

Definition list_optimization_jobs (app : App)
  : HTTPResult (list Optimization.JobInfo) * App :=
  let optimization_service := get_optimization_service in
  (Ok (Optimization.list_optimization_jobs
         (Optimization.jobs optimization_service)), app).

Definition cancel_optimization (optimization_id : string) (app : App)
  : HTTPResult string * App :=
  let optimization_service := get_optimization_service in
  if (Optimization.cancel_optimization optimization_id
        (Optimization.jobs optimization_service)).2
  then (Ok ("Optimization job " +:+ optimization_id +:+ " cancelled successfully"),
        app)
  else (HTTPException 404 "Optimization job not found or already completed",
        app).

(** [GET /results/{optimization_id}]. *)
Definition get_optimization_results (optimization_id : string) (app : App)
  : HTTPResult Optimization.OptimizationResult * App :=
  let optimization_service := get_optimization_service in
  match Optimization.get_optimization_results optimization_id
          (Optimization.jobs optimization_service) with
  | Optimization.Return (Some results) => (Ok results, app)
  | Optimization.Return None =>
      (HTTPException 404 "Optimization job not found or not completed", app)
  | Optimization.Raise exc => (HTTPException 500 exc, app)
  end.

(** The background task of a service object enters its coroutine, once the
    response of [start_training] has been sent. *)
Definition background_start (t_start t_done : Z) (i : TrainingInstance)
  : option TrainingInstance :=
  match t_scheduled i with
  | Some (training_id, request) =>
      s ← Training.step (Training.Start t_start t_done training_id request)
            (t_service i);
      Some {| t_service := s; t_scheduled := None |}
  | None => None
  end.

(** The application before any request. *)
Definition empty_app : App := {| training := []; optimization := [] |}.

End Endpoints.

(** * Values the runners compute

    The records a runner writes are functions of the request, of the clock
    read at its start and of the number of steps done. *)

Module TrainingRun.
Import Training.

(** The value of ["metrics"] after [k] of [n] epochs. *)
Definition epoch_metrics (n k : Z) : EpochMetrics :=
  {| loss := PrimFloat.sub 1.0 (PrimFloat.mul (int_truediv k n) 0.8);
     accuracy := PrimFloat.mul (int_truediv k n) 0.9;
     epoch := k |}.

(** The record of a job started at [t_start] whose runner has finished [k]
    epochs and has neither been cancelled nor failed. *)
Definition running_job (req : TrainingRequest) (t_start k : Z) : Job :=
  {| status := Running; start_time := t_start; request := req;
     progress := if k =? 0 then 0%float else int_truediv k (epochs req);
     metrics := if k =? 0 then None else Some (epoch_metrics (epochs req) k);
     current_epoch := if k =? 0 then None else Some k;
     completion_time := None; error := None |}.

(** The [asyncio.sleep] of the runner of [training_id] returning at the
    given clock readings. *)
Definition wakes (training_id : string) (times : list Z) : list Event :=
  (λ t, Wake t training_id) <$> times.

(** The epoch counters of a record are those of [running_job]. *)
Definition counters_of (j : Job) : Prop :=
  let r := running_job (request j) (start_time j) (epochs_done j) in
  progress j = progress r ∧ metrics j = metrics r ∧
  current_epoch j = current_epoch r.

Definition counters_inv (s : Sys) : Prop :=
  ∀ id j, jobs s !! id = Some j → counters_of j.

(** The events of a schedule that address one job. *)
Definition events_of (training_id : string) (evs : list Event) : list Event :=
  filter (λ e, target e = training_id) evs.

End TrainingRun.

Module OptimizationRun.
Import Optimization.

(** The score computed in iteration [i] (counted from 0) of [n]. *)
Definition iteration_score (n i : Z) : float :=
  PrimFloat.add
    (PrimFloat.add 0.5 (PrimFloat.mul (int_truediv (i + 1) n) 0.4))
    (PrimFloat.mul (float_of_Z i) 0.001).

(** The best score a history ends with; 0.0, the initial ["best_score"],
    for the empty history. *)
Definition best_of (h : list HistoryEntry) : float :=
  from_option h_best_score 0.0%float (last h).

(** The entry iteration [i] appends when the best score so far is [best]. *)
Definition next_entry (n i : Z) (best : float) : HistoryEntry :=
  {| iteration := i + 1;
     score := iteration_score n i;
     h_best_score := py_max (iteration_score n i) best;
     improvement := PrimFloat.sub (py_max (iteration_score n i) best) 0.5 |}.

(** The history after [k] iterations of a job of [n]. *)
Fixpoint history_after (n : Z) (k : nat) : list HistoryEntry :=
  match k with
  | O => []
  | S k' =>
      history_after n k'
      ++ [next_entry n (Z.of_nat k') (best_of (history_after n k'))]
  end.

(** The record of a job started at [t_start] whose runner has finished [k]
    iterations and has neither been cancelled nor failed. *)
Definition running_job (req : OptimizationRequest) (t_start : Z) (k : nat)
  : Job :=
  {| status := Running; start_time := t_start; request := req;
     progress := match k with
                 | O => 0%float
                 | S _ => int_truediv (Z.of_nat k) (max_iterations req)
                 end;
     best_score := best_of (history_after (max_iterations req) k);
     baseline_score := 0.5;
     history := history_after (max_iterations req) k;
     completion_time := None; error := None |}.

Definition wakes (optimization_id : string) (times : list Z) : list Event :=
  (λ t, Wake t optimization_id) <$> times.

(** The scores of a record are those of [running_job]. *)
Definition scores_of (j : Job) : Prop :=
  let r := running_job (request j) (start_time j) (length (history j)) in
  progress j = progress r ∧ best_score j = best_score r ∧
  history j = history r.

Definition scores_inv (s : Sys) : Prop :=
  ∀ id j, jobs s !! id = Some j → scores_of j.

(** The entry of iteration [i] when every score exceeds the ones before. *)
Definition rising_entry (n i : Z) : HistoryEntry :=
  {| iteration := i + 1;
     score := iteration_score n i;
     h_best_score := iteration_score n i;
     improvement := PrimFloat.sub (iteration_score n i) 0.5 |}.

Definition rising_history (n : Z) (k : nat) : list HistoryEntry :=
  rising_entry n <$> seqZ 0 (Z.of_nat k).

(** Every element of [l] is strictly above the one before it, the first
    one above [prev]; both comparisons of the code are evaluated. *)
Fixpoint rising (prev : float) (l : list float) : bool :=
  match l with
  | [] => true
  | x :: r => PrimFloat.ltb prev x && negb (PrimFloat.ltb x prev) && rising x r
  end.

(** The scores of the iterations [i], [i + 1], ..., [k] of them. *)
Fixpoint scores_from (n i : Z) (k : nat) : list float :=
  match k with
  | O => []
  | S k' => iteration_score n i :: scores_from n (i + 1) k'
  end.

(** The scores of a job of [n] iterations rise strictly, from above 0. *)
Definition scores_rise (n : Z) : bool :=
  rising 0 (scores_from n 0 (Z.to_nat n)).

(** The events of a schedule that address one job. *)
Definition events_of (optimization_id : string) (evs : list Event)
  : list Event :=
  filter (λ e, target e = optimization_id) evs.

End OptimizationRun.

(** * Ranges of the simulated training metrics *)

Module TrainingValues.

(** The accuracy and the loss of epoch [k] of [n] are within their ranges. *)
Definition metrics_in_range (n k : Z) : bool :=
  let m := TrainingRun.epoch_metrics n k in
  PrimFloat.ltb 0 (Training.accuracy m)
  && PrimFloat.leb (Training.accuracy m) 0.9
  && PrimFloat.leb 0.19999999999999996 (Training.loss m)
  && PrimFloat.ltb (Training.loss m) 1.

(** [metrics_in_range] for the epochs [k], [k + 1], ..., [f] of them. *)
Fixpoint epochs_in_range (n k : Z) (f : nat) : bool :=
  match f with
  | O => true
  | S f' => metrics_in_range n k && epochs_in_range n (k + 1) f'
  end.

(** A job of [n] epochs stays in range and ends with progress 1.0,
    accuracy 0.9 and loss 0.19999999999999996 ([==] of Python). *)
Definition values_ok (n : Z) : bool :=
  let m := TrainingRun.epoch_metrics n n in
  epochs_in_range n 1 (Z.to_nat n)
  && PrimFloat.eqb (int_truediv n n) 1
  && PrimFloat.eqb (Training.accuracy m) 0.9
  && PrimFloat.eqb (Training.loss m) 0.19999999999999996.

End TrainingValues.

(** * The evaluation metric of [dspy_service.py] *)

Module Dspy.

(** The Python values a prediction attribute may hold. *)
#[local] Set Warnings "-register-all".
Inductive PyVal :=
  | PyNone
  | PyBool (b : bool)
  | PyInt (z : Z)
  | PyFloat (f : float)
  | PyStr (s : string)
  | PyList (l : list PyVal).

(** [bool(v)]. *)
Definition truthy (v : PyVal) : bool :=
  match v with
  | PyNone => false
  | PyBool b => b
  | PyInt z => negb (z =? 0)
  | PyFloat f => negb (PrimFloat.eqb f 0)
  | PyStr s => negb (String.eqb s "")
  | PyList l => match l with [] => false | _ => true end
  end.

(** A prediction: an attribute is absent ([None]) or holds a value. *)
Record Prediction := {
  summary : option PyVal;
  feedback : option PyVal;
  score : option PyVal;
  suggestions : option PyVal
}.

(** [hasattr(pred, a) and pred.a]. *)
Definition present (a : option PyVal) : bool := from_option truthy false a.

(** [evaluate_code_review(example, pred, trace)]; [example] and [trace] are
    not read. *)
Definition evaluate_code_review (pred : Prediction) : float :=
  let s0 := 0.0%float in
  let s1 := if present (summary pred) then PrimFloat.add s0 0.3 else s0 in
  let s2 := if present (feedback pred) then PrimFloat.add s1 0.4 else s1 in
  let s3 := if present (score pred) then PrimFloat.add s2 0.2 else s2 in
  let s4 := if present (suggestions pred) then PrimFloat.add s3 0.1 else s3 in
  s4.

(** Every attribute that counts for [p] counts for [q]. *)
Definition no_less_complete (p q : Prediction) : Prop :=
  (present (summary p) → present (summary q)) ∧
  (present (feedback p) → present (feedback q)) ∧
  (present (score p) → present (score q)) ∧
  (present (suggestions p) → present (suggestions q)).

End Dspy.

(** * Model comparison
      ([optimization_service.py], [endpoints/optimization.py]) *)

Module Comparison.

Record Scores := {
  accuracy : float;
  precision : float;
  recall : float;
  f1_score : float
}.

(** The accuracy for a residue [r] of the hash modulo 10. *)
Definition accuracy_of (r : Z) : float :=
  PrimFloat.add 0.85 (PrimFloat.mul (float_of_Z r) 0.01).

(** [results[model] = {...}] on a dictionary in insertion order: an
    existing key keeps its place. *)
Fixpoint dict_set {V : Type} (k : string) (v : V) (d : list (string * V))
  : list (string * V) :=
  match d with
  | [] => [(k, v)]
  | (k', v') :: r =>
      if decide (k' = k) then (k', v) :: r else (k', v') :: dict_set k v r
  end.

Fixpoint dict_get {V : Type} (k : string) (d : list (string * V)) : option V :=
  match d with
  | [] => None
  | (k', v') :: r => if decide (k' = k) then Some v' else dict_get k r
  end.

(** [max(keys, key=...)] on a non-empty sequence: the first element whose
    key no later element exceeds. *)
Definition max_by (key : string → float) (first : string) (rest : list string)
  : string :=
  fold_left (λ best k, if PrimFloat.ltb (key best) (key k) then k else best)
            rest first.

(** The table of checks [accuracy_of r1 < accuracy_of r2 iff r1 < r2]. *)
Definition accuracy_order_ok : bool :=
  forallb (λ r1, forallb (λ r2, Bool.eqb (PrimFloat.ltb (accuracy_of r1)
                                                        (accuracy_of r2))
                                         (r1 <? r2))
                         (seqZ 0 10))
          (seqZ 0 10).

Section WithHash.

(** The builtin [hash] on strings; it changes from process to process. *)
Variable hash : string → Z.

(** The mock evaluation of one model. *)
Definition model_scores (model : string) : Scores :=
  {| accuracy := accuracy_of (hash model `mod` 10);
     precision := PrimFloat.add 0.82
                    (PrimFloat.mul (float_of_Z (hash model `mod` 8)) 0.01);
     recall := PrimFloat.add 0.88
                 (PrimFloat.mul (float_of_Z (hash model `mod` 12)) 0.01);
     f1_score := PrimFloat.add 0.85
                   (PrimFloat.mul (float_of_Z (hash model `mod` 15)) 0.01) |}.

(** [OptimizationService.compare_models]; the metric names and the test
    data are not read, and nothing in the body raises. *)
Definition compare_models (models : list string) : list (string * Scores) :=
  fold_left (λ results model, dict_set model (model_scores model) results)
            models [].

Record ModelComparison := {
  comparison_id : string;
  models : list string;
  evaluation_metrics : list string;
  comparison_results : list (string * Scores);
  winner : option string
}.

(** [POST /compare-models]. [max] of an empty sequence raises [ValueError],
    which the endpoint turns into a 500. *)
Definition compare_models_endpoint (uuid : string) (ms metrics : list string)
  : HTTPResult ModelComparison :=
  let results := compare_models ms in
  let key k := from_option accuracy 0%float (dict_get k results) in
  match results.*1 with
  | [] => HTTPException 500 "max() arg is an empty sequence"
  | first :: rest =>
      Ok {| comparison_id := uuid; models := ms;
            evaluation_metrics := metrics;
            comparison_results := results;
            winner := Some (max_by key first rest) |}
  end.

End WithHash.

End Comparison.

(** * Facts about the two services *)

(** Case analysis on the tests of the segments. *)
Ltac job_cases :=
  repeat match goal with
  | |- context [decide ?P] => destruct (decide P)
  | |- context [Z.ltb ?a ?b] => destruct (Z.ltb_spec a b)
  | H : context [decide ?P] |- _ => destruct (decide P)
  | H : context [Z.ltb ?a ?b] |- _ => destruct (Z.ltb_spec a b)
  end.

(** Lookups in a table that was just written. *)
Ltac written :=
  simpl; rewrite ?insert_insert_eq, ?lookup_insert_eq, ?lookup_delete_eq; simpl.

Module TrainingFacts.
Import Training.

(** *** Writes are local to the addressed job *)

Lemma train_on_exception_frame id msg js id' :
  id' ≠ id → (on_exception id msg js).1 !! id' = js !! id'.
Proof.
  intros Hne. unfold on_exception. destruct (js !! id); simpl; [|done].
  by rewrite lookup_insert_ne.
Qed.

Lemma train_loop_head_frame now id req i js id' :
  id' ≠ id → (loop_head now id req i js).1 !! id' = js !! id'.
Proof.
  intros Hne. unfold loop_head.
  destruct (js !! id) eqn:E.
  - repeat case_match; simpl; try done. by rewrite lookup_insert_ne.
  - by apply train_on_exception_frame.
Qed.

Lemma train_cancel_frame id js id' :
  id' ≠ id → (cancel_training id js).1 !! id' = js !! id'.
Proof.
  intros Hne. unfold cancel_training.
  repeat case_match; simpl; try done. by rewrite lookup_insert_ne.
Qed.

Lemma train_settle_frame id req o ts id' :
  id' ≠ id → settle id req o ts !! id' = ts !! id'.
Proof.
  intros Hne. destruct o; simpl.
  - by rewrite lookup_insert_ne.
  - by rewrite lookup_delete_ne.
  - by rewrite lookup_delete_ne.
Qed.

Lemma train_step_frame e s s' id :
  step e s = Some s' → id ≠ target e →
  jobs s' !! id = jobs s !! id ∧ tasks s' !! id = tasks s !! id.
Proof.
  intros Hs Hne. destruct e; simpl in *; repeat case_match; simplify_eq; simpl.
  - unfold train_model_start. rewrite train_loop_head_frame, train_settle_frame by done.
    by rewrite lookup_insert_ne.
  - unfold train_model_resume. rewrite train_settle_frame by done. split; [|done].
    repeat case_match; simpl.
    + rewrite train_loop_head_frame by done. by rewrite lookup_insert_ne.
    + by rewrite train_on_exception_frame.
  - rewrite train_settle_frame, train_on_exception_frame by done. done.
  - by rewrite train_cancel_frame.
Qed.

(** *** The invariant *)

Lemma train_inv_init : inv init.
Proof. intros id. simpl. by rewrite !lookup_empty. Qed.

Ltac finish :=
  unfold job_inv, epochs_done in *; simpl in *;
  repeat match goal with
  | j : Job |- _ => destruct j; simpl in *
  end;
  subst; simpl in *; unfold is_Some in *;
  try done; try (naive_solver lia).

Lemma train_step_inv e s s' : inv s → step e s = Some s' → inv s'.
Proof.
  intros Hinv Hs id.
  destruct (decide (id = target e)) as [->|Hne].
  2:{ destruct (train_step_frame _ _ _ _ Hs Hne) as [-> ->]. apply Hinv. }
  specialize (Hinv (target e)).
  destruct e; simpl in *; repeat case_match; simplify_eq; simpl.
  - unfold train_model_start, loop_head. rewrite lookup_insert_eq.
    job_cases; written; solve [finish].
  - unfold train_model_resume, loop_head, on_exception in *.
    destruct (jobs s !! training_id) as [j|] eqn:Ej; [|done].
    rewrite lookup_insert_eq.
    job_cases; written; solve [finish].
  - unfold on_exception in *.
    destruct (jobs s !! training_id) as [j|] eqn:Ej; [|done].
    written. solve [finish].
  - unfold cancel_training in *.
    destruct (jobs s !! training_id) as [j|] eqn:Ej; simpl; [|by rewrite Ej].
    job_cases; simpl; rewrite ?Ej, ?lookup_insert_eq; simpl; [|done].
    destruct (tasks s !! training_id) as [[??]|]; solve [finish].
Qed.

Lemma train_run_inv evs s s' : inv s → run evs s = Some s' → inv s'.
Proof.
  revert s. induction evs as [|e evs IH]; intros s Hinv Hr; simpl in Hr.
  - by simplify_eq.
  - destruct (step e s) as [s1|] eqn:Es; [|done]. eauto using train_step_inv.
Qed.

Lemma train_reachable_inv evs s : run evs init = Some s → inv s.
Proof. apply train_run_inv, train_inv_init. Qed.

(** *** A job whose coroutine is gone keeps its record *)

Lemma train_step_settled e s s' id j :
  inv s → jobs s !! id = Some j → tasks s !! id = None →
  step e s = Some s' → jobs s' !! id = Some j ∧ tasks s' !! id = None.
Proof.
  intros Hinv Hj Ht Hs.
  destruct (decide (id = target e)) as [->|Hne].
  2:{ destruct (train_step_frame _ _ _ _ Hs Hne) as [-> ->]. done. }
  specialize (Hinv (target e)). rewrite Hj, Ht in Hinv.
  destruct e; simpl in *; simplify_option_eq; try done.
  unfold cancel_training. rewrite Hj.
  destruct (decide (status j = Running)) as [E|]; simpl; [|done].
  rewrite E in Hinv. simpl in Hinv. naive_solver.
Qed.

Lemma train_run_settled evs s s' id j :
  inv s → jobs s !! id = Some j → tasks s !! id = None →
  run evs s = Some s' → jobs s' !! id = Some j ∧ tasks s' !! id = None.
Proof.
  revert s. induction evs as [|e evs IH]; intros s Hinv Hj Ht Hr; simpl in Hr.
  - by simplify_eq.
  - destruct (step e s) as [s1|] eqn:Es; [|done].
    destruct (train_step_settled _ _ _ _ _ Hinv Hj Ht Es).
    eauto using train_step_inv.
Qed.

(** A completed job has no coroutine left. *)
Lemma train_completed_no_task s id j :
  inv s → jobs s !! id = Some j → status j = Completed → tasks s !! id = None.
Proof.
  intros Hinv Hj Hc. specialize (Hinv id). rewrite Hj in Hinv.
  destruct (tasks s !! id) as [[req i]|]; [|done].
  simpl in Hinv. naive_solver congruence.
Qed.

(** *** The changes of status a step can make

    Besides the arrows of the state graph, a step can take a cancelled job
    to completed or failed: the runner whose step was in flight when the
    job was cancelled goes on to the code after the loop, or to the
    exception handler. *)
Lemma train_status_step e s s' id j j' :
  inv s → step e s = Some s' →
  jobs s !! id = Some j → jobs s' !! id = Some j' →
  status j' = status j ∨
  legal_transition (status j) (status j') = true ∨
  (status j = Cancelled ∧ (status j' = Completed ∨ status j' = Failed)).
Proof.
  intros Hinv Hs Hj Hj'.
  destruct (decide (id = target e)) as [->|Hne].
  2:{ destruct (train_step_frame _ _ _ _ Hs Hne) as [E _].
      rewrite E, Hj in Hj'. left. congruence. }
  specialize (Hinv (target e)). rewrite Hj in Hinv.
  destruct e as [t1 t2 tid req|now tid|tid msg|tid]; simpl in *.
  - by rewrite Hj in Hs.
  - destruct (tasks s !! tid) as [[req i]|]; [|done]. simplify_eq. simpl in *.
    unfold train_model_resume, loop_head in Hj'.
    rewrite Hj, lookup_insert_eq in Hj'.
    destruct Hinv as (_ & _ & _ & _ & _ & _ & _ & [Hst|Hst]);
      job_cases; simpl in *; rewrite ?insert_insert_eq, ?lookup_insert_eq in Hj';
      simplify_eq; simpl in *; rewrite ?Hst; auto; congruence.
  - destruct (tasks s !! tid) as [[req i]|]; [|done]. simplify_eq. simpl in *.
    unfold on_exception in Hj'. rewrite Hj in Hj'. simpl in Hj'.
    rewrite lookup_insert_eq in Hj'. simplify_eq. simpl.
    destruct Hinv as (_ & _ & _ & _ & _ & _ & _ & [Hst|Hst]); rewrite Hst; auto.
  - simplify_eq. simpl in *.
    unfold cancel_training in Hj'. rewrite Hj in Hj'.
    destruct (decide (status j = Running)) as [Hst|Hst]; simpl in *.
    + rewrite lookup_insert_eq in Hj'. simplify_eq. simpl.
      right; left. by rewrite Hst.
    + left. congruence.
Qed.

End TrainingFacts.

Module OptimizationFacts.
Import Optimization.

(** *** Writes are local to the addressed job *)

Lemma opt_on_exception_frame id msg js id' :
  id' ≠ id → (on_exception id msg js).1 !! id' = js !! id'.
Proof.
  intros Hne. unfold on_exception. destruct (js !! id); simpl; [|done].
  by rewrite lookup_insert_ne.
Qed.

Lemma opt_loop_head_frame now id req i js id' :
  id' ≠ id → (loop_head now id req i js).1 !! id' = js !! id'.
Proof.
  intros Hne. unfold loop_head.
  destruct (js !! id) eqn:E.
  - repeat case_match; simpl; try done. by rewrite lookup_insert_ne.
  - by apply opt_on_exception_frame.
Qed.

Lemma opt_cancel_frame id js id' :
  id' ≠ id → (cancel_optimization id js).1 !! id' = js !! id'.
Proof.
  intros Hne. unfold cancel_optimization.
  repeat case_match; simpl; try done. by rewrite lookup_insert_ne.
Qed.

Lemma opt_settle_frame id req o ts id' :
  id' ≠ id → settle id req o ts !! id' = ts !! id'.
Proof.
  intros Hne. destruct o; simpl.
  - by rewrite lookup_insert_ne.
  - by rewrite lookup_delete_ne.
  - by rewrite lookup_delete_ne.
Qed.

Lemma opt_step_frame e s s' id :
  step e s = Some s' → id ≠ target e →
  jobs s' !! id = jobs s !! id ∧ tasks s' !! id = tasks s !! id.
Proof.
  intros Hs Hne. destruct e; simpl in *; repeat case_match; simplify_eq; simpl.
  - unfold optimize_module_start. rewrite opt_loop_head_frame, opt_settle_frame by done.
    by rewrite lookup_insert_ne.
  - unfold optimize_module_resume. rewrite opt_settle_frame by done. split; [|done].
    repeat case_match; simpl.
    + rewrite opt_loop_head_frame by done. by rewrite lookup_insert_ne.
    + by rewrite opt_on_exception_frame.
  - rewrite opt_settle_frame, opt_on_exception_frame by done. done.
  - by rewrite opt_cancel_frame.
Qed.

(** *** Numbering of the history *)

Lemma opt_numbered_nil : numbered [].
Proof. done. Qed.

Lemma opt_numbered_snoc h e :
  numbered h → iteration e = Z.of_nat (length h) + 1 → numbered (h ++ [e]).
Proof.
  unfold numbered. intros Hh He.
  rewrite fmap_app, length_app. simpl.
  rewrite Nat.add_1_r, seqZ_S, Hh, He. do 2 f_equal. lia.
Qed.

(** The [k]-th entry of a numbered history carries the index [k + 1]. *)
Lemma opt_numbered_lookup h (k : nat) e :
  numbered h → h !! k = Some e → iteration e = Z.of_nat k + 1.
Proof.
  unfold numbered. intros Hh He.
  assert (Hk : (iteration <$> h) !! k = Some (iteration e))
    by (by rewrite list_lookup_fmap, He).
  rewrite Hh in Hk. apply lookup_seqZ in Hk. lia.
Qed.

(** *** The invariant *)

Lemma opt_inv_init : inv init.
Proof. intros id. simpl. by rewrite !lookup_empty. Qed.

Ltac finish :=
  unfold job_inv, steps_done in *; simpl in *;
  repeat match goal with
  | j : Job |- _ => destruct j; simpl in *
  end;
  subst; simpl in *; unfold is_Some in *;
  rewrite ?length_app, ?Nat2Z.inj_add in *; simpl in *;
  try done;
  try (naive_solver eauto using opt_numbered_nil, opt_numbered_snoc with lia).

Lemma opt_step_inv e s s' : inv s → step e s = Some s' → inv s'.
Proof.
  intros Hinv Hs id.
  destruct (decide (id = target e)) as [->|Hne].
  2:{ destruct (opt_step_frame _ _ _ _ Hs Hne) as [-> ->]. apply Hinv. }
  specialize (Hinv (target e)).
  destruct e; simpl in *; repeat case_match; simplify_eq; simpl.
  - unfold optimize_module_start, loop_head. rewrite lookup_insert_eq.
    job_cases; written; solve [finish].
  - unfold optimize_module_resume, loop_head, on_exception in *.
    destruct (jobs s !! optimization_id) as [j|] eqn:Ej; [|done].
    rewrite lookup_insert_eq.
    job_cases; written; solve [finish].
  - unfold on_exception in *.
    destruct (jobs s !! optimization_id) as [j|] eqn:Ej; [|done].
    written. solve [finish].
  - unfold cancel_optimization in *.
    destruct (jobs s !! optimization_id) as [j|] eqn:Ej; simpl; [|by rewrite Ej].
    job_cases; simpl; rewrite ?Ej, ?lookup_insert_eq; simpl; [|done].
    destruct (tasks s !! optimization_id) as [[??]|]; solve [finish].
Qed.

Lemma opt_run_inv evs s s' : inv s → run evs s = Some s' → inv s'.
Proof.
  revert s. induction evs as [|e evs IH]; intros s Hinv Hr; simpl in Hr.
  - by simplify_eq.
  - destruct (step e s) as [s1|] eqn:Es; [|done]. eauto using opt_step_inv.
Qed.

Lemma opt_reachable_inv evs s : run evs init = Some s → inv s.
Proof. apply opt_run_inv, opt_inv_init. Qed.

(** *** A job whose coroutine is gone keeps its record *)

Lemma opt_step_settled e s s' id j :
  inv s → jobs s !! id = Some j → tasks s !! id = None →
  step e s = Some s' → jobs s' !! id = Some j ∧ tasks s' !! id = None.
Proof.
  intros Hinv Hj Ht Hs.
  destruct (decide (id = target e)) as [->|Hne].
  2:{ destruct (opt_step_frame _ _ _ _ Hs Hne) as [-> ->]. done. }
  specialize (Hinv (target e)). rewrite Hj, Ht in Hinv.
  destruct e; simpl in *; simplify_option_eq; try done.
  unfold cancel_optimization. rewrite Hj.
  destruct (decide (status j = Running)) as [E|]; simpl; [|done].
  rewrite E in Hinv. simpl in Hinv. naive_solver.
Qed.

Lemma opt_run_settled evs s s' id j :
  inv s → jobs s !! id = Some j → tasks s !! id = None →
  run evs s = Some s' → jobs s' !! id = Some j ∧ tasks s' !! id = None.
Proof.
  revert s. induction evs as [|e evs IH]; intros s Hinv Hj Ht Hr; simpl in Hr.
  - by simplify_eq.
  - destruct (step e s) as [s1|] eqn:Es; [|done].
    destruct (opt_step_settled _ _ _ _ _ Hinv Hj Ht Es).
    eauto using opt_step_inv.
Qed.

Lemma opt_completed_no_task s id j :
  inv s → jobs s !! id = Some j → status j = Completed → tasks s !! id = None.
Proof.
  intros Hinv Hj Hc. specialize (Hinv id). rewrite Hj in Hinv.
  destruct (tasks s !! id) as [[req i]|]; [|done].
  simpl in Hinv. naive_solver congruence.
Qed.

(** *** The changes of status a step can make *)
Lemma opt_status_step e s s' id j j' :
  inv s → step e s = Some s' →
  jobs s !! id = Some j → jobs s' !! id = Some j' →
  status j' = status j ∨
  legal_transition (status j) (status j') = true ∨
  (status j = Cancelled ∧ (status j' = Completed ∨ status j' = Failed)).
Proof.
  intros Hinv Hs Hj Hj'.
  destruct (decide (id = target e)) as [->|Hne].
  2:{ destruct (opt_step_frame _ _ _ _ Hs Hne) as [E _].
      rewrite E, Hj in Hj'. left. congruence. }
  specialize (Hinv (target e)). rewrite Hj in Hinv.
  destruct e as [t1 t2 tid req|now tid|tid msg|tid]; simpl in *.
  - by rewrite Hj in Hs.
  - destruct (tasks s !! tid) as [[req i]|]; [|done]. simplify_eq. simpl in *.
    unfold optimize_module_resume, loop_head in Hj'.
    rewrite Hj, lookup_insert_eq in Hj'.
    destruct Hinv as (_ & _ & _ & _ & _ & _ & _ & _ & [Hst|Hst]);
      job_cases; simpl in *; rewrite ?insert_insert_eq, ?lookup_insert_eq in Hj';
      simplify_eq; simpl in *; rewrite ?Hst; auto; congruence.
  - destruct (tasks s !! tid) as [[req i]|]; [|done]. simplify_eq. simpl in *.
    unfold on_exception in Hj'. rewrite Hj in Hj'. simpl in Hj'.
    rewrite lookup_insert_eq in Hj'. simplify_eq. simpl.
    destruct Hinv as (_ & _ & _ & _ & _ & _ & _ & _ & [Hst|Hst]); rewrite Hst; auto.
  - simplify_eq. simpl in *.
    unfold cancel_optimization in Hj'. rewrite Hj in Hj'.
    destruct (decide (status j = Running)) as [Hst|Hst]; simpl in *.
    + rewrite lookup_insert_eq in Hj'. simplify_eq. simpl.
      right; left. by rewrite Hst.
    + left. congruence.
Qed.

End OptimizationFacts.

(** * Properties of the job life cycle *)

Import Endpoints.

(** C1. Through the endpoint layer every read, list, cancel and result
    request is served by a service object built for that request, whose
    table is empty: whatever the application holds and whatever the id, the
    status and cancel endpoints answer 404, the result endpoint answers 404,
    the list endpoints answer the empty list, and the application is left
    as it was. In particular the id a [start_training] or
    [start_optimization] request has just returned is not found by the next
    status request. *)
Theorem C1_endpoint_reads_see_no_job (app : App) (id uuid : string) (now : Z)
    (tbody : Training.TrainingBody) (obody : Optimization.OptimizationBody) :
  Training.jobs get_training_service = ∅ ∧
  Optimization.jobs get_optimization_service = ∅ ∧
  get_training_status id app
    = (HTTPException 404 "Training job not found", app) ∧
  Endpoints.cancel_training id app
    = (HTTPException 404 "Training job not found or already completed", app) ∧
  Endpoints.list_training_jobs app = (Ok [], app) ∧
  get_optimization_status id app
    = (HTTPException 404 "Optimization job not found", app) ∧
  Endpoints.cancel_optimization id app
    = (HTTPException 404 "Optimization job not found or already completed",
       app) ∧
  Endpoints.list_optimization_jobs app = (Ok [], app) ∧
  Endpoints.get_optimization_results id app
    = (HTTPException 404 "Optimization job not found or not completed", app) ∧
  (get_training_status uuid (start_training uuid now tbody app).2).1
    = HTTPException 404 "Training job not found" ∧
  (get_optimization_status uuid (start_optimization uuid now obody app).2).1
    = HTTPException 404 "Optimization job not found".
Proof.
  repeat split.
Qed.

(** C2, counterexample. A training job with one epoch is started and
    cancelled while its epoch is in flight: the call of [cancel_training]
    turns the status field from running to cancelled. *)
Lemma C2_counterexample :
  ∃ s j j',
    Training.run [Training.Start 0 0 "job" (Training.sample_request 1)]
      Training.init = Some s ∧
    Training.jobs s !! "job" = Some j ∧
    (Training.cancel_training "job" (Training.jobs s)).1 !! "job" = Some j' ∧
    Training.status j' ≠ Training.status j.
Proof.
  eexists _, _, _. split; [reflexivity|].
  split; [reflexivity|]. split; [reflexivity|]. discriminate.
Qed.

(** C2, amended. [cancel_training] and [cancel_optimization] write the
    status field itself, there is no separate flag: on a job whose status is
    running they set the status to cancelled and return [True], every other
    field of the record and every other job staying as it was; in every other
    case they return [False] and change nothing. For each service the
    statement reads: the other jobs are untouched; a job of the table whose
    status is running makes the call return [True]; a call that returns
    [False] leaves the table as it was; a call that returns [True] found the
    job running and left it cancelled, all its other fields unchanged. *)
Theorem C2_cancel_writes_status_only (id : string)
    (tjobs : Training.Registry) (ojobs : Optimization.Registry) :
  (let r := Training.cancel_training id tjobs in
   (∀ id', id' ≠ id → r.1 !! id' = tjobs !! id') ∧
   (∀ j, tjobs !! id = Some j → Training.status j = Running → r.2 = true) ∧
   (r.2 = false → r.1 = tjobs) ∧
   (r.2 = true → ∃ j j',
      tjobs !! id = Some j ∧ r.1 !! id = Some j' ∧
      Training.status j = Running ∧ Training.status j' = Cancelled ∧
      Training.start_time j' = Training.start_time j ∧
      Training.request j' = Training.request j ∧
      Training.progress j' = Training.progress j ∧
      Training.metrics j' = Training.metrics j ∧
      Training.current_epoch j' = Training.current_epoch j ∧
      Training.completion_time j' = Training.completion_time j ∧
      Training.error j' = Training.error j)) ∧
  (let r := Optimization.cancel_optimization id ojobs in
   (∀ id', id' ≠ id → r.1 !! id' = ojobs !! id') ∧
   (∀ j, ojobs !! id = Some j → Optimization.status j = Running →
         r.2 = true) ∧
   (r.2 = false → r.1 = ojobs) ∧
   (r.2 = true → ∃ j j',
      ojobs !! id = Some j ∧ r.1 !! id = Some j' ∧
      Optimization.status j = Running ∧ Optimization.status j' = Cancelled ∧
      Optimization.start_time j' = Optimization.start_time j ∧
      Optimization.request j' = Optimization.request j ∧
      Optimization.progress j' = Optimization.progress j ∧
      Optimization.best_score j' = Optimization.best_score j ∧
      Optimization.baseline_score j' = Optimization.baseline_score j ∧
      Optimization.history j' = Optimization.history j ∧
      Optimization.completion_time j' = Optimization.completion_time j ∧
      Optimization.error j' = Optimization.error j)).
Proof.
  split; simpl.
  - split; [intros; by apply TrainingFacts.train_cancel_frame|].
    unfold Training.cancel_training.
    destruct (tjobs !! id) as [j|] eqn:Ej; simpl; [|done].
    destruct (decide (Training.status j = Running)) as [Hrun|Hrun]; simpl.
    + split; [done|]. split; [done|]. intros _.
      exists j, (Training.set_status Cancelled j).
      by rewrite lookup_insert_eq.
    + split; [|done]. intros j0 [= <-] Hj0. by destruct Hrun.
  - split; [intros; by apply OptimizationFacts.opt_cancel_frame|].
    unfold Optimization.cancel_optimization.
    destruct (ojobs !! id) as [j|] eqn:Ej; simpl; [|done].
    destruct (decide (Optimization.status j = Running)) as [Hrun|Hrun]; simpl.
    + split; [done|]. split; [done|]. intros _.
      exists j, (Optimization.set_status Cancelled j).
      by rewrite lookup_insert_eq.
    + split; [|done]. intros j0 [= <-] Hj0. by destruct Hrun.
Qed.

(** C3, the failing schedule. A job with a single step is started, then
    cancelled while that step is in flight: the call returns [True] and the
    status is cancelled. When the step returns, the loop is over and the
    code after it marks the job completed: the status leaves a terminal
    value, along an arrow that is not in the state graph. No step fails in
    this schedule; both services behave alike. *)
Theorem C3_cancelled_job_is_marked_completed :
  (∃ s0 s1 s2 j1 j2,
     Training.run [Training.Start 0 0 "job" (Training.sample_request 1)]
       Training.init = Some s0 ∧
     (Training.cancel_training "job" (Training.jobs s0)).2 = true ∧
     Training.step (Training.Cancel "job") s0 = Some s1 ∧
     Training.jobs s1 !! "job" = Some j1 ∧
     Training.status j1 = Cancelled ∧
     Training.step (Training.Wake 1 "job") s1 = Some s2 ∧
     Training.jobs s2 !! "job" = Some j2 ∧
     Training.status j2 = Completed) ∧
  (∃ s0 s1 s2 j1 j2,
     Optimization.run
       [Optimization.Start 0 0 "job" (Optimization.sample_request 1)]
       Optimization.init = Some s0 ∧
     (Optimization.cancel_optimization "job" (Optimization.jobs s0)).2 = true ∧
     Optimization.step (Optimization.Cancel "job") s0 = Some s1 ∧
     Optimization.jobs s1 !! "job" = Some j1 ∧
     Optimization.status j1 = Cancelled ∧
     Optimization.step (Optimization.Wake 1 "job") s1 = Some s2 ∧
     Optimization.jobs s2 !! "job" = Some j2 ∧
     Optimization.status j2 = Completed) ∧
  terminal Cancelled = true ∧
  legal_transition Cancelled Completed = false.
Proof.
  split; [|split]; [| |done].
  - eexists _, _, _, _, _. repeat (split; [reflexivity|]). reflexivity.
  - eexists _, _, _, _, _. repeat (split; [reflexivity|]). reflexivity.
Qed.

(** C4, counterexample. A job cancelled while its step is in flight has a
    terminal status and no [completion_time]: neither [cancel_training] nor
    the [return False] of the runner writes one. *)
Lemma C4_counterexample :
  ∃ s j,
    Training.run [Training.Start 0 0 "job" (Training.sample_request 2);
                  Training.Cancel "job"; Training.Wake 1 "job"]
      Training.init = Some s ∧
    Training.jobs s !! "job" = Some j ∧
    Training.tasks s !! "job" = None ∧
    terminal (Training.status j) = true ∧
    Training.completion_time j = None ∧
    ¬ (is_Some (Training.completion_time j)
       ↔ terminal (Training.status j) = true).
Proof.
  eexists _, _. repeat (split; [reflexivity|]).
  intros [_ H]. by destruct (H eq_refl).
Qed.

(** C4, amended. In every reachable state of either service a job record
    carries a [completion_time] if and only if its status is completed
    (cancelled and failed jobs carry none); the step that writes it is the
    one that sets the status to completed; and once written, the record,
    hence the time, never changes again. *)
Theorem C4_completion_time_iff_completed
    (tevs : list Training.Event) (ts : Training.Sys) (tid : string)
    (tj : Training.Job)
    (oevs : list Optimization.Event) (os : Optimization.Sys) (oid : string)
    (oj : Optimization.Job) :
  Training.run tevs Training.init = Some ts →
  Training.jobs ts !! tid = Some tj →
  Optimization.run oevs Optimization.init = Some os →
  Optimization.jobs os !! oid = Some oj →
  ((is_Some (Training.completion_time tj) ↔ Training.status tj = Completed) ∧
   (∀ e ts' tj',
      Training.step e ts = Some ts' → Training.jobs ts' !! tid = Some tj' →
      Training.completion_time tj = None →
      is_Some (Training.completion_time tj') →
      Training.status tj ≠ Completed ∧ Training.status tj' = Completed) ∧
   (∀ evs ts',
      is_Some (Training.completion_time tj) →
      Training.run evs ts = Some ts' → Training.jobs ts' !! tid = Some tj)) ∧
  ((is_Some (Optimization.completion_time oj)
    ↔ Optimization.status oj = Completed) ∧
   (∀ e os' oj',
      Optimization.step e os = Some os' →
      Optimization.jobs os' !! oid = Some oj' →
      Optimization.completion_time oj = None →
      is_Some (Optimization.completion_time oj') →
      Optimization.status oj ≠ Completed ∧
      Optimization.status oj' = Completed) ∧
   (∀ evs os',
      is_Some (Optimization.completion_time oj) →
      Optimization.run evs os = Some os' →
      Optimization.jobs os' !! oid = Some oj)).
Proof.
  intros Ht Htj Ho Hoj.
  apply TrainingFacts.train_reachable_inv in Ht.
  apply OptimizationFacts.opt_reachable_inv in Ho.
  split.
  - assert (Hiff : is_Some (Training.completion_time tj)
                   ↔ Training.status tj = Completed).
    { specialize (Ht tid). rewrite Htj in Ht. simpl in Ht. tauto. }
    split; [done|]. split.
    + intros e ts' tj' Hs Htj' Hnone Hsome.
      pose proof (TrainingFacts.train_step_inv _ _ _ Ht Hs tid) as Hi.
      rewrite Htj' in Hi. simpl in Hi.
      split; [|tauto]. intros Hc. apply Hiff in Hc.
      rewrite Hnone in Hc. by destruct Hc.
    + intros evs ts' Hsome Hr. apply Hiff in Hsome.
      eapply TrainingFacts.train_run_settled; eauto.
      eapply TrainingFacts.train_completed_no_task; eauto.
  - assert (Hiff : is_Some (Optimization.completion_time oj)
                   ↔ Optimization.status oj = Completed).
    { specialize (Ho oid). rewrite Hoj in Ho. simpl in Ho. tauto. }
    split; [done|]. split.
    + intros e os' oj' Hs Hoj' Hnone Hsome.
      pose proof (OptimizationFacts.opt_step_inv _ _ _ Ho Hs oid) as Hi.
      rewrite Hoj' in Hi. simpl in Hi.
      split; [|tauto]. intros Hc. apply Hiff in Hc.
      rewrite Hnone in Hc. by destruct Hc.
    + intros evs os' Hsome Hr. apply Hiff in Hsome.
      eapply OptimizationFacts.opt_run_settled; eauto.
      eapply OptimizationFacts.opt_completed_no_task; eauto.
Qed.

(** The amended C4 on two jobs with a single step, run to completion. *)
Lemma C4_witness :
  ∃ ts tj os oj,
    Training.run [Training.Start 0 0 "job" (Training.sample_request 1);
                  Training.Wake 7 "job"] Training.init = Some ts ∧
    Training.jobs ts !! "job" = Some tj ∧
    Optimization.run
      [Optimization.Start 0 0 "job" (Optimization.sample_request 1);
       Optimization.Wake 7 "job"] Optimization.init = Some os ∧
    Optimization.jobs os !! "job" = Some oj ∧
    Training.completion_time tj = Some 7 ∧
    Optimization.completion_time oj = Some 7 ∧
    (is_Some (Training.completion_time tj) ↔ Training.status tj = Completed) ∧
    (is_Some (Optimization.completion_time oj)
     ↔ Optimization.status oj = Completed).
Proof.
  eexists _, _, _, _. do 6 (split; [reflexivity|]).
  pose proof (C4_completion_time_iff_completed
    [Training.Start 0 0 "job" (Training.sample_request 1);
     Training.Wake 7 "job"] _ "job" _
    [Optimization.Start 0 0 "job" (Optimization.sample_request 1);
     Optimization.Wake 7 "job"] _ "job" _
    eq_refl eq_refl eq_refl eq_refl) as [[H1 _] [H2 _]].
  split; [exact H1|exact H2].
Defined.

(** C5, counterexample. Three epochs are requested; the job is cancelled
    while epoch 2 is in flight, that is before epoch 3 begins. The runner
    records epoch 2, sees the cancelled status at the head of the loop and
    returns: epoch 3 never runs and [current_epoch] stays 2, but no
    [completion_time] is written. *)
Lemma C5_counterexample :
  ∃ s j,
    Training.run [Training.Start 0 0 "job" (Training.sample_request 3);
                  Training.Wake 1 "job"; Training.Cancel "job";
                  Training.Wake 2 "job"] Training.init = Some s ∧
    Training.jobs s !! "job" = Some j ∧
    Training.tasks s !! "job" = None ∧
    Training.status j = Cancelled ∧
    Training.current_epoch j = Some 2 ∧
    ¬ is_Some (Training.completion_time j).
Proof.
  eexists _, _. repeat (split; [reflexivity|]).
  intros [t Ht]. discriminate Ht.
Qed.

(** C5, amended. Let the runner of a job be suspended in step [i + 1] (loop
    index [i]), let a later step exist, and let the status already be
    cancelled. When the step in flight returns, it is recorded, the check at
    the head of the loop ends the coroutine, and the job keeps the status
    cancelled with [i + 1] steps done; no later step ever runs, since the
    record never changes again. No [completion_time] is written. *)
Theorem C5_cancel_stops_before_next_step
    (tevs : list Training.Event) (ts : Training.Sys) (tid : string)
    (treq : Training.TrainingRequest) (ti : Z) (tj : Training.Job)
    (oevs : list Optimization.Event) (os : Optimization.Sys) (oid : string)
    (oreq : Optimization.OptimizationRequest) (oi : Z)
    (oj : Optimization.Job) (now : Z) :
  Training.run tevs Training.init = Some ts →
  Training.tasks ts !! tid = Some (treq, ti) →
  Training.jobs ts !! tid = Some tj →
  Training.status tj = Cancelled →
  ti + 1 < Training.epochs treq →
  Optimization.run oevs Optimization.init = Some os →
  Optimization.tasks os !! oid = Some (oreq, oi) →
  Optimization.jobs os !! oid = Some oj →
  Optimization.status oj = Cancelled →
  oi + 1 < Optimization.max_iterations oreq →
  (∃ ts' tj',
     Training.step (Training.Wake now tid) ts = Some ts' ∧
     Training.tasks ts' !! tid = None ∧
     Training.jobs ts' !! tid = Some tj' ∧
     Training.status tj' = Cancelled ∧
     Training.current_epoch tj' = Some (ti + 1) ∧
     Training.completion_time tj' = None ∧
     ∀ evs ts'', Training.run evs ts' = Some ts'' →
                 Training.jobs ts'' !! tid = Some tj') ∧
  (∃ os' oj',
     Optimization.step (Optimization.Wake now oid) os = Some os' ∧
     Optimization.tasks os' !! oid = None ∧
     Optimization.jobs os' !! oid = Some oj' ∧
     Optimization.status oj' = Cancelled ∧
     Z.of_nat (length (Optimization.history oj')) = oi + 1 ∧
     Optimization.completion_time oj' = None ∧
     ∀ evs os'', Optimization.run evs os' = Some os'' →
                 Optimization.jobs os'' !! oid = Some oj').
Proof.
  intros Ht Htt Htj Htc Hti Ho Hot Hoj Hoc Hoi.
  apply TrainingFacts.train_reachable_inv in Ht.
  apply OptimizationFacts.opt_reachable_inv in Ho.
  split.
  - destruct (Training.step (Training.Wake now tid) ts) as [ts'|] eqn:Hs;
      [|by simpl in Hs; rewrite Htt in Hs].
    pose proof (TrainingFacts.train_step_inv _ _ _ Ht Hs) as Hinv'.
    pose proof (Ht tid) as Hi. rewrite Htj, Htt in Hi. simpl in Hi.
    destruct Hi as (_ & Hct & _).
    simpl in Hs. rewrite Htt in Hs.
    unfold Training.train_model_resume, Training.loop_head in Hs.
    rewrite Htj, lookup_insert_eq in Hs.
    destruct (Z.ltb_spec (ti + 1) (Training.epochs treq)); [|lia].
    simpl in Hs. rewrite decide_True in Hs by done.
    simpl in Hs. simplify_eq.
    eexists _, _. split; [done|]. simpl.
    rewrite lookup_delete_eq, lookup_insert_eq.
    do 4 (split; [done|]). split.
    + simpl. destruct (Training.completion_time tj) eqn:E; [|done].
      assert (is_Some (Some z)) as Hsome by done.
      apply Hct in Hsome. congruence.
    + intros evs ts'' Hr.
      eapply TrainingFacts.train_run_settled; [exact Hinv'| | |exact Hr]; simpl.
      * by rewrite lookup_insert_eq.
      * by rewrite lookup_delete_eq.
  - destruct (Optimization.step (Optimization.Wake now oid) os) as [os'|] eqn:Hs;
      [|by simpl in Hs; rewrite Hot in Hs].
    pose proof (OptimizationFacts.opt_step_inv _ _ _ Ho Hs) as Hinv'.
    pose proof (Ho oid) as Hi. rewrite Hoj, Hot in Hi. simpl in Hi.
    destruct Hi as (_ & Hct & _ & _ & _ & _ & _ & Hlen & _).
    simpl in Hs. rewrite Hot in Hs.
    unfold Optimization.optimize_module_resume, Optimization.loop_head in Hs.
    rewrite Hoj, lookup_insert_eq in Hs.
    destruct (Z.ltb_spec (oi + 1) (Optimization.max_iterations oreq)); [|lia].
    simpl in Hs. rewrite decide_True in Hs by done.
    simpl in Hs. simplify_eq.
    eexists _, _. split; [done|]. simpl.
    rewrite lookup_delete_eq, lookup_insert_eq.
    do 3 (split; [done|]). split; [|split].
    + simpl. rewrite length_app. simpl.
      unfold Optimization.steps_done. lia.
    + simpl. destruct (Optimization.completion_time oj) eqn:E; [|done].
      assert (is_Some (Some z)) as Hsome by done.
      apply Hct in Hsome. congruence.
    + intros evs os'' Hr.
      eapply OptimizationFacts.opt_run_settled; [exact Hinv'| | |exact Hr]; simpl.
      * by rewrite lookup_insert_eq.
      * by rewrite lookup_delete_eq.
Qed.

(** The amended C5 on two jobs of three steps, cancelled during step 2. *)
Lemma C5_witness :
  ∃ ts tj os oj,
    Training.run [Training.Start 0 0 "job" (Training.sample_request 3);
                  Training.Wake 1 "job"; Training.Cancel "job"]
      Training.init = Some ts ∧
    Training.tasks ts !! "job" = Some (Training.sample_request 3, 1) ∧
    Training.jobs ts !! "job" = Some tj ∧
    Training.status tj = Cancelled ∧
    Optimization.run
      [Optimization.Start 0 0 "job" (Optimization.sample_request 3);
       Optimization.Wake 1 "job"; Optimization.Cancel "job"]
      Optimization.init = Some os ∧
    Optimization.tasks os !! "job" = Some (Optimization.sample_request 3, 1) ∧
    Optimization.jobs os !! "job" = Some oj ∧
    Optimization.status oj = Cancelled ∧
    (∃ ts' tj',
       Training.step (Training.Wake 2 "job") ts = Some ts' ∧
       Training.tasks ts' !! "job" = None ∧
       Training.jobs ts' !! "job" = Some tj' ∧
       Training.status tj' = Cancelled ∧
       Training.current_epoch tj' = Some 2) ∧
    (∃ os' oj',
       Optimization.step (Optimization.Wake 2 "job") os = Some os' ∧
       Optimization.tasks os' !! "job" = None ∧
       Optimization.jobs os' !! "job" = Some oj' ∧
       Optimization.status oj' = Cancelled ∧
       Z.of_nat (length (Optimization.history oj')) = 2).
Proof.
  eexists _, _, _, _. do 8 (split; [reflexivity|]).
  destruct (C5_cancel_stops_before_next_step
    [Training.Start 0 0 "job" (Training.sample_request 3);
     Training.Wake 1 "job"; Training.Cancel "job"] _ "job"
    (Training.sample_request 3) 1 _
    [Optimization.Start 0 0 "job" (Optimization.sample_request 3);
     Optimization.Wake 1 "job"; Optimization.Cancel "job"] _ "job"
    (Optimization.sample_request 3) 1 _ 2
    eq_refl eq_refl eq_refl eq_refl eq_refl
    eq_refl eq_refl eq_refl eq_refl eq_refl)
    as [(ts' & tj' & H1 & H2 & H3 & H4 & H5 & _)
        (os' & oj' & G1 & G2 & G3 & G4 & G5 & _)].
  split.
  - exists ts', tj'. auto.
  - exists os', oj'. auto.
Defined.

(** C6. In every reachable state of either service, [cancel_training] and
    [cancel_optimization] return [True] exactly when the job is in the table
    with a status that is not terminal; when they return [False] the table
    is unchanged; and on a running job a first call returns [True], a second
    one [False]. *)
Theorem C6_cancel_result
    (tevs : list Training.Event) (ts : Training.Sys)
    (oevs : list Optimization.Event) (os : Optimization.Sys) (id : string) :
  Training.run tevs Training.init = Some ts →
  Optimization.run oevs Optimization.init = Some os →
  (let r := Training.cancel_training id (Training.jobs ts) in
   (r.2 = true ↔ ∃ j, Training.jobs ts !! id = Some j ∧
                       terminal (Training.status j) = false) ∧
   (r.2 = false → r.1 = Training.jobs ts) ∧
   (∀ j, Training.jobs ts !! id = Some j → Training.status j = Running →
         r.2 = true ∧ (Training.cancel_training id r.1).2 = false)) ∧
  (let r := Optimization.cancel_optimization id (Optimization.jobs os) in
   (r.2 = true ↔ ∃ j, Optimization.jobs os !! id = Some j ∧
                       terminal (Optimization.status j) = false) ∧
   (r.2 = false → r.1 = Optimization.jobs os) ∧
   (∀ j, Optimization.jobs os !! id = Some j →
         Optimization.status j = Running →
         r.2 = true ∧ (Optimization.cancel_optimization id r.1).2 = false)).
Proof.
  intros Ht Ho.
  apply TrainingFacts.train_reachable_inv in Ht. specialize (Ht id).
  apply OptimizationFacts.opt_reachable_inv in Ho. specialize (Ho id).
  split; simpl.
  - unfold Training.cancel_training.
    destruct (Training.jobs ts !! id) as [j|] eqn:Ej; simpl.
    + destruct Ht as [Hp _].
      destruct (decide (Training.status j = Running)) as [Hr|Hr]; simpl.
      * split; [|split]; [| done |].
        -- split; [|done]. intros _. exists j. by rewrite Hr.
        -- intros j0 ? _. simplify_eq. split; [done|].
           by rewrite lookup_insert_eq.
      * split; [|split]; [| done | intros j0 ??; by simplify_eq].
        split; [done|]. intros (j0 & ? & Hterm). simplify_eq.
        by destruct (Training.status j0).
    + split; [|split]; [| done | done].
      split; [done|]. by intros (j0 & ? & _).
  - unfold Optimization.cancel_optimization.
    destruct (Optimization.jobs os !! id) as [j|] eqn:Ej; simpl.
    + destruct Ho as [Hp _].
      destruct (decide (Optimization.status j = Running)) as [Hr|Hr]; simpl.
      * split; [|split]; [| done |].
        -- split; [|done]. intros _. exists j. by rewrite Hr.
        -- intros j0 ? _. simplify_eq. split; [done|].
           by rewrite lookup_insert_eq.
      * split; [|split]; [| done | intros j0 ??; by simplify_eq].
        split; [done|]. intros (j0 & ? & Hterm). simplify_eq.
        by destruct (Optimization.status j0).
    + split; [|split]; [| done | done].
      split; [done|]. by intros (j0 & ? & _).
Qed.

(** C6 on two running jobs: the first cancel returns [True], the second
    [False]. *)
Lemma C6_witness :
  ∃ ts os,
    Training.run [Training.Start 0 0 "job" (Training.sample_request 2)]
      Training.init = Some ts ∧
    Optimization.run
      [Optimization.Start 0 0 "job" (Optimization.sample_request 2)]
      Optimization.init = Some os ∧
    (let r := Training.cancel_training "job" (Training.jobs ts) in
     r.2 = true ∧ (Training.cancel_training "job" r.1).2 = false) ∧
    (let r := Optimization.cancel_optimization "job" (Optimization.jobs os) in
     r.2 = true ∧ (Optimization.cancel_optimization "job" r.1).2 = false).
Proof.
  eexists _, _. do 2 (split; [reflexivity|]).
  destruct (C6_cancel_result
    [Training.Start 0 0 "job" (Training.sample_request 2)] _
    [Optimization.Start 0 0 "job" (Optimization.sample_request 2)] _
    "job" eq_refl eq_refl) as [(_ & _ & H) (_ & _ & G)].
  split.
  - exact (H _ eq_refl eq_refl).
  - exact (G _ eq_refl eq_refl).
Defined.

(** C7. In every reachable state of the optimization service and for every
    job, the iteration [get_optimization_progress] reports is the length of
    the history, this length is the number of iterations the runner has
    completed (the loop index it is suspended at), and the entries of the
    history carry the indices 1, 2, ..., length in this order. *)
Theorem C7_history_length_and_numbering
    (evs : list Optimization.Event) (s : Optimization.Sys) (id : string)
    (j : Optimization.Job) :
  Optimization.run evs Optimization.init = Some s →
  Optimization.jobs s !! id = Some j →
  (∃ p, Optimization.get_optimization_progress id (Optimization.jobs s)
          = Some p ∧
        Optimization.p_iteration p
          = Z.of_nat (length (Optimization.history j))) ∧
  (∀ req i, Optimization.tasks s !! id = Some (req, i) →
            Z.of_nat (length (Optimization.history j)) = i) ∧
  Optimization.iteration <$> Optimization.history j
    = seqZ 1 (Z.of_nat (length (Optimization.history j))) ∧
  (∀ (k : nat) e, Optimization.history j !! k = Some e →
                  Optimization.iteration e = Z.of_nat k + 1).
Proof.
  intros Hr Hj.
  apply OptimizationFacts.opt_reachable_inv in Hr. specialize (Hr id).
  rewrite Hj in Hr. simpl in Hr.
  destruct Hr as (_ & _ & _ & _ & Hnum & Htask).
  split; [|split; [|split]].
  - unfold Optimization.get_optimization_progress. rewrite Hj. eauto.
  - intros req i Ht. rewrite Ht in Htask. by destruct Htask as (_ & _ & ? & _).
  - exact Hnum.
  - intros k e. by apply OptimizationFacts.opt_numbered_lookup.
Qed.

(** C7 on a job of three iterations, two of them done. *)
Lemma C7_witness :
  ∃ s j,
    Optimization.run
      [Optimization.Start 0 0 "job" (Optimization.sample_request 3);
       Optimization.Wake 1 "job"; Optimization.Wake 2 "job"]
      Optimization.init = Some s ∧
    Optimization.jobs s !! "job" = Some j ∧
    length (Optimization.history j) = 2%nat ∧
    Optimization.iteration <$> Optimization.history j
    = seqZ 1 (Z.of_nat (length (Optimization.history j))).
Proof.
  eexists _, _. do 3 (split; [reflexivity|]).
  exact (proj1 (proj2 (proj2 (C7_history_length_and_numbering
    [Optimization.Start 0 0 "job" (Optimization.sample_request 3);
     Optimization.Wake 1 "job"; Optimization.Wake 2 "job"] _ "job" _
    eq_refl eq_refl)))).
Defined.

(** C8, counterexample. An optimization job of one iteration is run to
    completion: best score 0.9 against the baseline 0.5. The result carries
    [improvement_percentage], the quotient times 100 (about 80), not the
    quotient [(best - baseline) / baseline] (about 0.8). *)
Lemma C8_counterexample :
  ∃ s r,
    Optimization.run
      [Optimization.Start 0 0 "job" (Optimization.sample_request 1);
       Optimization.Wake 7 "job"] Optimization.init = Some s ∧
    Optimization.get_optimization_results "job" (Optimization.jobs s)
      = Optimization.Return (Some r) ∧
    Optimization.improvement_percentage r
      ≠ PrimFloat.div
          (PrimFloat.sub (Optimization.final_score r)
                         (Optimization.r_baseline_score r))
          (Optimization.r_baseline_score r).
Proof.
  eexists _, _. do 2 (split; [reflexivity|]).
  intros H. apply (f_equal (λ x, PrimFloat.ltb x 1)) in H.
  vm_compute in H. discriminate H.
Qed.

(** C8, amended. In every reachable state of the optimization service,
    [get_optimization_results] returns [None] for an unknown job and for a
    job whose status is not completed. For a completed job it returns a
    result whose [improvement_percentage] is
    [((best - baseline) / baseline) * 100], whose [optimization_time] is the
    number of seconds from [start_time] to [completion_time], whose
    [iterations_completed] is the length of the history, equal to the
    iteration reported by the progress read and to the requested number of
    iterations, and whose [optimization_history] is the history. *)
Theorem C8_results_of_completed_job
    (evs : list Optimization.Event) (s : Optimization.Sys) (id : string) :
  Optimization.run evs Optimization.init = Some s →
  let results :=
    Optimization.get_optimization_results id (Optimization.jobs s) in
  (Optimization.jobs s !! id = None → results = Optimization.Return None) ∧
  (∀ j, Optimization.jobs s !! id = Some j →
        Optimization.status j ≠ Completed →
        results = Optimization.Return None) ∧
  (∀ j, Optimization.jobs s !! id = Some j →
        Optimization.status j = Completed →
        ∃ t_end r p,
          Optimization.completion_time j = Some t_end ∧
          results = Optimization.Return (Some r) ∧
          Optimization.final_score r = Optimization.best_score j ∧
          Optimization.r_baseline_score r = Optimization.baseline_score j ∧
          Optimization.improvement_percentage r
            = PrimFloat.mul
                (PrimFloat.div
                   (PrimFloat.sub (Optimization.best_score j)
                                  (Optimization.baseline_score j))
                   (Optimization.baseline_score j)) 100 ∧
          Optimization.optimization_time r
            = total_seconds (t_end - Optimization.start_time j) ∧
          Optimization.iterations_completed r
            = Z.of_nat (length (Optimization.history j)) ∧
          Optimization.iterations_completed r
            = Z.max 0 (Optimization.max_iterations (Optimization.request j)) ∧
          Optimization.get_optimization_progress id (Optimization.jobs s)
            = Some p ∧
          Optimization.p_iteration p = Optimization.iterations_completed r ∧
          Optimization.optimization_history r = Optimization.history j).
Proof.
  intros Hr results. subst results.
  apply OptimizationFacts.opt_reachable_inv in Hr.
  unfold Optimization.get_optimization_results,
    Optimization.get_optimization_progress.
  split; [|split].
  - by intros ->.
  - intros j -> Hn. by rewrite decide_False.
  - intros j Hj Hc.
    pose proof (OptimizationFacts.opt_completed_no_task _ _ _ Hr Hj Hc) as Ht.
    specialize (Hr id). rewrite Hj, Ht in Hr. simpl in Hr.
    destruct Hr as (_ & Hct & _ & Hb & _ & _ & _ & Hlen).
    apply Hct in Hc as Hsome. destruct Hsome as [t_end Ht_end].
    rewrite Hj, decide_True, Hb, Ht_end by done. simpl.
    eexists _, _, _. repeat (split; [reflexivity|]).
    split; [exact (Hlen Hc)|]. done.
Qed.

(** The amended C8 on a job of one iteration run to completion. *)
Lemma C8_witness :
  ∃ s r,
    Optimization.run
      [Optimization.Start 0 0 "job" (Optimization.sample_request 1);
       Optimization.Wake 7 "job"] Optimization.init = Some s ∧
    Optimization.get_optimization_results "job" (Optimization.jobs s)
      = Optimization.Return (Some r) ∧
    Optimization.iterations_completed r = 1 ∧
    Optimization.get_optimization_results "other" (Optimization.jobs s)
      = Optimization.Return None.
Proof.
  eexists _, _. do 3 (split; [reflexivity|]).
  exact (proj1 (C8_results_of_completed_job
    [Optimization.Start 0 0 "job" (Optimization.sample_request 1);
     Optimization.Wake 7 "job"] _ "other" eq_refl) eq_refl).
Defined.

(** C9. A submission whose [epochs] (for training) or [max_iterations] (for
    optimization) is zero or negative fails the [ge=1] constraint of the
    request model: the start endpoint answers with the validation error, no
    service object and no background task are created, and the application
    is as it was, so no job record can ever appear for it. *)
Theorem C9_nonpositive_total_is_rejected (uuid : string) (now : Z)
    (tbody : Training.TrainingBody) (obody : Optimization.OptimizationBody)
    (e m : Z) (app : App) :
  Training.body_epochs tbody = Some e → e ≤ 0 →
  Optimization.body_max_iterations obody = Some m → m ≤ 0 →
  Training.validate tbody = None ∧
  start_training uuid now tbody app = (RequestValidationError, app) ∧
  Optimization.validate obody = None ∧
  start_optimization uuid now obody app = (RequestValidationError, app).
Proof.
  intros He Hle Hm Hme.
  assert (Ht : Training.validate tbody = None).
  { unfold Training.validate. rewrite He.
    assert (Training.int_field 10 1 100 (Some e) = None) as ->.
    { unfold Training.int_field. simpl.
      destruct (Z.leb_spec 1 e); [lia|done]. }
    destruct (Training.body_model_type tbody); [|done].
    by destruct (Training.body_training_data tbody). }
  assert (Ho : Optimization.validate obody = None).
  { unfold Optimization.validate. rewrite Hm.
    assert (Training.int_field 100 1 1000 (Some m) = None) as ->.
    { unfold Training.int_field. simpl.
      destruct (Z.leb_spec 1 m); [lia|done]. }
    destruct (Optimization.body_target_module obody); [|done].
    destruct (Optimization.body_optimization_algorithm obody); [|done].
    by destruct (Optimization.body_training_data obody). }
  unfold start_training, start_optimization. by rewrite Ht, Ho.
Qed.

(** C9 on submissions asking for zero epochs and zero iterations. *)
Lemma C9_witness :
  Training.body_epochs (Training.sample_body 0) = Some 0 ∧
  Optimization.body_max_iterations (Optimization.sample_body 0) = Some 0 ∧
  start_training "job" 0 (Training.sample_body 0) empty_app
    = (RequestValidationError, empty_app) ∧
  start_optimization "job" 0 (Optimization.sample_body 0) empty_app
    = (RequestValidationError, empty_app).
Proof.
  do 2 (split; [reflexivity|]).
  destruct (C9_nonpositive_total_is_rejected "job" 0
    (Training.sample_body 0) (Optimization.sample_body 0) 0 0 empty_app
    eq_refl ltac:(lia) eq_refl ltac:(lia)) as (_ & H1 & _ & H2).
  split; [exact H1|exact H2].
Defined.

(** C10, counterexample. A valid submission of five epochs is answered with
    status pending, yet the progress read issued right after it finds no
    job: the status endpoint answers 404. *)
Lemma C10_counterexample :
  ∃ resp app',
    start_training "job" 0 (Training.sample_body 5) empty_app
      = (Ok resp, app') ∧
    tr_training_id resp = "job" ∧
    tr_status resp = Pending ∧
    get_training_status "job" app'
      = (HTTPException 404 "Training job not found", app') ∧
    ¬ (∃ p, (get_training_status "job" app').1 = Ok p ∧
            Training.p_status p = Pending ∧ Training.p_epoch p = 0).
Proof.
  eexists _, _. do 4 (split; [reflexivity|]).
  intros (p & Hp & _). discriminate Hp.
Qed.

(** C10, amended. A valid submission is answered with the generated id and
    the status pending, and creates no job record: the service object handed
    to the background task has an empty table, so a progress read on it
    finds nothing, and the status endpoint answers 404. The record is
    written when the background task starts, with status running; a progress
    read on that service object, before any epoch has finished, then shows
    status running and epoch 0. *)
Theorem C10_submission_then_progress (uuid : string) (now t_start t_done : Z)
    (body : Training.TrainingBody) (req : Training.TrainingRequest)
    (app : App) :
  Training.validate body = Some req →
  ∃ resp inst inst' p,
    start_training uuid now body app = (Ok resp, add_training inst app) ∧
    tr_training_id resp = uuid ∧
    tr_status resp = Pending ∧
    tr_total_epochs resp = Training.epochs req ∧
    t_scheduled inst = Some (uuid, req) ∧
    Training.jobs (t_service inst) = ∅ ∧
    Training.get_training_progress uuid (Training.jobs (t_service inst))
      = None ∧
    (get_training_status uuid (add_training inst app)).1
      = HTTPException 404 "Training job not found" ∧
    background_start t_start t_done inst = Some inst' ∧
    Training.get_training_progress uuid (Training.jobs (t_service inst'))
      = Some p ∧
    Training.p_status p = Running ∧
    Training.p_epoch p = 0 ∧
    Training.p_total_epochs p = Training.epochs req.
Proof.
  intros Hv.
  assert (He : 0 < Training.epochs req).
  { unfold Training.validate, Training.int_field in Hv.
    simplify_option_eq. simpl.
    repeat case_match; simplify_eq.
    match goal with H : _ && _ = true |- _ => apply andb_prop in H as [H _] end.
    lia. }
  unfold start_training. rewrite Hv.
  eexists _, _, _, _. split; [reflexivity|]. simpl.
  do 7 (split; [reflexivity|]).
  unfold background_start. simpl.
  unfold Training.train_model_start, Training.loop_head.
  rewrite !lookup_empty, lookup_insert_eq.
  destruct (Z.ltb_spec 0 (Training.epochs req)); [|lia]. simpl.
  split; [reflexivity|].
  unfold Training.get_training_progress. simpl.
  rewrite lookup_insert_eq. eauto.
Qed.

(** The amended C10 on a submission of five epochs. *)
Lemma C10_witness :
  Training.validate (Training.sample_body 5)
    = Some (Training.sample_request 5) ∧
  ∃ resp inst inst' p,
    start_training "job" 0 (Training.sample_body 5) empty_app
      = (Ok resp, add_training inst empty_app) ∧
    tr_status resp = Pending ∧
    Training.get_training_progress "job" (Training.jobs (t_service inst))
      = None ∧
    background_start 1 1 inst = Some inst' ∧
    Training.get_training_progress "job" (Training.jobs (t_service inst'))
      = Some p ∧
    Training.p_status p = Running ∧
    Training.p_epoch p = 0.
Proof.
  split; [reflexivity|].
  destruct (C10_submission_then_progress "job" 0 1 1
    (Training.sample_body 5) (Training.sample_request 5) empty_app eq_refl)
    as (resp & inst & inst' & p & H1 & _ & H3 & _ & _ & _ & H7 & _ & H9
        & H10 & H11 & H12 & _).
  exists resp, inst, inst', p. auto 10.
Defined.

Module TrainingRunFacts.
Import Training TrainingFacts TrainingRun.

Lemma train_run_cons e evs s s1 :
  step e s = Some s1 → run (e :: evs) s = run evs s1.
Proof. simpl. by intros ->. Qed.

(** One more epoch of a running job that has a later epoch left. *)
Lemma train_wake_running s id req t0 i now :
  tasks s !! id = Some (req, i) →
  jobs s !! id = Some (running_job req t0 i) →
  0 ≤ i → i + 1 < epochs req →
  step (Wake now id) s
  = Some {| jobs := <[id := running_job req t0 (i + 1)]> (jobs s);
            tasks := <[id := (req, i + 1)]> (tasks s) |}.
Proof.
  intros Ht Hj Hi Hlt. simpl. rewrite Ht.
  unfold train_model_resume, loop_head. rewrite Hj, lookup_insert_eq.
  destruct (Z.ltb_spec (i + 1) (epochs req)); [|lia]. simpl.
  simpl.
  unfold running_job, set_epoch, epoch_metrics. simpl.
  destruct (Z.eqb_spec (i + 1) 0); [lia|]. done.
Qed.

Lemma train_run_wakes times : ∀ s id req t0 i,
  tasks s !! id = Some (req, i) →
  jobs s !! id = Some (running_job req t0 i) →
  0 ≤ i → i + Z.of_nat (length times) < epochs req →
  ∃ s', run (wakes id times) s = Some s' ∧
        tasks s' !! id = Some (req, i + Z.of_nat (length times)) ∧
        jobs s' !! id = Some (running_job req t0 (i + Z.of_nat (length times))) ∧
        ∀ id', id' ≠ id → jobs s' !! id' = jobs s !! id' ∧
                          tasks s' !! id' = tasks s !! id'.
Proof.
  induction times as [|t times IH]; intros s id req t0 i Ht Hj Hi Hlt.
  - exists s. simpl. rewrite Z.add_0_r. done.
  - rewrite length_cons in *.
    replace (i + Z.of_nat (S (length times)))
      with (i + 1 + Z.of_nat (length times)) in * by lia.
    change (wakes id (t :: times)) with (Wake t id :: wakes id times).
    rewrite (train_run_cons _ _ _ _
               (train_wake_running s id req t0 i t Ht Hj Hi ltac:(lia))).
    destruct (IH {| jobs := <[id := running_job req t0 (i + 1)]> (jobs s);
                    tasks := <[id := (req, i + 1)]> (tasks s) |}
                 id req t0 (i + 1)) as (s' & Hr & Ht' & Hj' & Hfr).
    + apply lookup_insert_eq.
    + apply lookup_insert_eq.
    + lia.
    + lia.
    + exists s'. do 3 (split; [done|]).
      intros id' Hne. destruct (Hfr id' Hne) as [-> ->]. simpl.
      by rewrite !lookup_insert_ne.
Qed.

Lemma train_run_append evs1 evs2 s s1 :
  run evs1 s = Some s1 → run (evs1 ++ evs2) s = run evs2 s1.
Proof.
  revert s. induction evs1 as [|e evs1 IH]; intros s; simpl.
  - by intros [= ->].
  - destruct (step e s); [apply IH|done].
Qed.

(** The first segment of a runner with at least one epoch to run. *)
Lemma train_start_running s id req t_start t_done :
  jobs s !! id = None → tasks s !! id = None → 0 < epochs req →
  step (Start t_start t_done id req) s
  = Some {| jobs := <[id := running_job req t_start 0]> (jobs s);
            tasks := <[id := (req, 0)]> (tasks s) |}.
Proof.
  intros Hj Ht Hn. simpl. rewrite Hj, Ht.
  unfold train_model_start, loop_head. rewrite lookup_insert_eq.
  destruct (Z.ltb_spec 0 (epochs req)); [|lia]. done.
Qed.

(** The last epoch: the loop is left and the job is marked completed. *)
Lemma train_wake_last s id req t0 i now :
  tasks s !! id = Some (req, i) →
  jobs s !! id = Some (running_job req t0 i) →
  0 ≤ i → i + 1 = epochs req →
  step (Wake now id) s
  = Some {| jobs := <[id := set_completion_time now
                            (set_status Completed (running_job req t0 (i + 1)))]>
                      (jobs s);
            tasks := delete id (tasks s) |}.
Proof.
  intros Ht Hj Hi Hlt. simpl. rewrite Ht.
  unfold train_model_resume, loop_head. rewrite Hj, lookup_insert_eq.
  destruct (Z.ltb_spec (i + 1) (epochs req)); [lia|]. simpl.
  rewrite insert_insert_eq.
  unfold running_job, set_epoch, epoch_metrics, set_completion_time,
    set_status. simpl.
  destruct (Z.eqb_spec (i + 1) 0); [lia|]. done.
Qed.

(** Start followed by [k] wake-ups, [k] below the number of epochs. *)
Lemma train_start_wakes s0 id req t_start t_done times :
  jobs s0 !! id = None → tasks s0 !! id = None →
  Z.of_nat (length times) < epochs req →
  ∃ s, run (Start t_start t_done id req :: wakes id times) s0 = Some s ∧
       jobs s !! id = Some (running_job req t_start (Z.of_nat (length times))) ∧
       tasks s !! id = Some (req, Z.of_nat (length times)) ∧
       (∀ id', id' ≠ id → jobs s !! id' = jobs s0 !! id' ∧
                          tasks s !! id' = tasks s0 !! id').
Proof.
  intros Hj Ht Hlt.
  rewrite (train_run_cons _ _ _ _
             (train_start_running s0 id req t_start t_done Hj Ht ltac:(lia))).
  destruct (train_run_wakes times
              {| jobs := <[id := running_job req t_start 0]> (jobs s0);
                 tasks := <[id := (req, 0)]> (tasks s0) |}
              id req t_start 0) as (s & Hr & Ht' & Hj' & Hfr).
  - apply lookup_insert_eq.
  - apply lookup_insert_eq.
  - lia.
  - lia.
  - rewrite Z.add_0_l in *. exists s. do 3 (split; [done|]).
    intros id' Hne. destruct (Hfr id' Hne) as [-> ->]. simpl.
    by rewrite !lookup_insert_ne.
Qed.

End TrainingRunFacts.

Section TrainingRuns.
Import Training TrainingFacts TrainingRun TrainingRunFacts.

(** X1. Progress of an undisturbed training job. On a service whose table
    does not hold [id], let the runner start and let [k] of its sleeps
    return, [k] smaller than the number of epochs, with no cancel in
    between. Then the job is running with [k] epochs done, the progress read
    reports status running, epoch [k], the requested total and the metrics
    of epoch [k], the runner is suspended in epoch [k + 1], and no other job
    of the table has changed. *)
Theorem X1_progress_after_k_epochs (s0 : Sys) (id : string)
    (req : TrainingRequest) (t_start t_done : Z) (times : list Z) :
  jobs s0 !! id = None → tasks s0 !! id = None →
  Z.of_nat (length times) < epochs req →
  let k := Z.of_nat (length times) in
  ∃ s, run (Start t_start t_done id req :: wakes id times) s0 = Some s ∧
       jobs s !! id = Some (running_job req t_start k) ∧
       tasks s !! id = Some (req, k) ∧
       get_training_progress id (jobs s)
       = Some {| p_training_id := id; p_status := Running; p_epoch := k;
                 p_total_epochs := epochs req;
                 p_loss := if k =? 0 then 0%float
                           else loss (epoch_metrics (epochs req) k);
                 p_accuracy := if k =? 0 then 0%float
                               else accuracy (epoch_metrics (epochs req) k);
                 p_learning_rate := learning_rate req |} ∧
       (∀ id', id' ≠ id → jobs s !! id' = jobs s0 !! id').
Proof.
  intros Hj Ht Hlt k.
  destruct (train_start_wakes s0 id req t_start t_done times Hj Ht Hlt)
    as (s & Hr & Hj' & Ht' & Hfr).
  exists s. do 3 (split; [done|]). split.
  - unfold get_training_progress. rewrite Hj'. subst k.
    unfold running_job. simpl.
    destruct (Z.of_nat (length times) =? 0) eqn:E; simpl; [|done].
    apply Z.eqb_eq in E. by rewrite E.
  - intros id' Hne. by destruct (Hfr id' Hne).
Qed.

(** X2. Completion of an undisturbed training job. If the runner starts
    and every one of its [n >= 1] sleeps returns with no cancel in between,
    the job ends completed with [current_epoch = n], the clock read after
    the last sleep as [completion_time], the start clock as [start_time] and
    the metrics of epoch [n]; the coroutine is gone, so a further wake-up is
    not possible and a cancel returns [False]. *)
Theorem X2_training_runs_to_completion (s0 : Sys) (id : string)
    (req : TrainingRequest) (t_start t_done t_end : Z) (times : list Z) :
  jobs s0 !! id = None → tasks s0 !! id = None →
  epochs req = Z.of_nat (length times) + 1 →
  ∃ s j,
    run (Start t_start t_done id req :: wakes id (times ++ [t_end])) s0
    = Some s ∧
    jobs s !! id = Some j ∧ tasks s !! id = None ∧
    status j = Completed ∧
    current_epoch j = Some (epochs req) ∧
    metrics j = Some (epoch_metrics (epochs req) (epochs req)) ∧
    start_time j = t_start ∧ completion_time j = Some t_end ∧
    error j = None ∧
    step (Wake t_end id) s = None ∧
    (cancel_training id (jobs s)).2 = false ∧
    (∀ id', id' ≠ id → jobs s !! id' = jobs s0 !! id').
Proof.
  intros Hj Ht Hn.
  destruct (train_start_wakes s0 id req t_start t_done times Hj Ht
              ltac:(lia)) as (s1 & Hr & Hj1 & Ht1 & Hfr).
  assert (Heq : (epochs req =? 0) = false) by (apply Z.eqb_neq; lia).
  pose proof (train_wake_last s1 id req t_start _ t_end Ht1 Hj1
                ltac:(lia) ltac:(lia)) as Hlast.
  rewrite <- Hn in Hlast.
  unfold wakes. rewrite fmap_app, app_comm_cons.
  rewrite (train_run_append _ _ _ _ Hr).
  change ((λ t, Wake t id) <$> [t_end]) with [Wake t_end id].
  rewrite (train_run_cons _ _ _ _ Hlast).
  eexists _, _. split; [reflexivity|]. cbn [jobs tasks].
  rewrite lookup_insert_eq, lookup_delete_eq.
  split; [reflexivity|]. split; [done|].
  unfold running_job, set_completion_time, set_status.
  cbn [status current_epoch metrics start_time completion_time error].
  rewrite Heq. do 6 (split; [done|]).
  split; [by cbn [step tasks]; rewrite lookup_delete_eq|].
  split.
  - unfold cancel_training. by rewrite lookup_insert_eq.
  - intros id' Hne. rewrite lookup_insert_ne by done.
    by destruct (Hfr id' Hne).
Qed.
End TrainingRuns.

(** X1 on a job of three epochs after two of them. *)
Lemma X1_witness :
  ∃ s, Training.run
         [Training.Start 0 0 "job" (Training.sample_request 3);
          Training.Wake 1 "job"; Training.Wake 2 "job"] Training.init
       = Some s ∧
       Training.jobs s !! "job"
       = Some (TrainingRun.running_job (Training.sample_request 3) 0 2).
Proof.
  destruct (X1_progress_after_k_epochs Training.init "job"
              (Training.sample_request 3) 0 0 [1; 2] eq_refl eq_refl eq_refl)
    as (s & H1 & H2 & _).
  exists s. split; [exact H1|exact H2].
Defined.

(** X2 on a job of two epochs. *)
Lemma X2_witness :
  ∃ s j, Training.run
           [Training.Start 0 0 "job" (Training.sample_request 2);
            Training.Wake 1 "job"; Training.Wake 2 "job"] Training.init
         = Some s ∧
         Training.jobs s !! "job" = Some j ∧
         Training.status j = Completed ∧
         Training.completion_time j = Some 2.
Proof.
  destruct (X2_training_runs_to_completion Training.init "job"
              (Training.sample_request 2) 0 0 2 [1] eq_refl eq_refl eq_refl)
    as (s & j & H1 & H2 & _ & H4 & _ & _ & _ & H8 & _).
  exists s, j. auto.
Defined.

Module TrainingInvFacts.
Import Training TrainingFacts TrainingRun.

(** *** The counters of a record follow its number of finished epochs *)

Lemma train_counters_init : counters_inv init.
Proof. intros id j. simpl. by rewrite lookup_empty. Qed.

Ltac counters :=
  unfold counters_of, running_job, epochs_done, job_inv in *; simpl in *;
  repeat match goal with
  | j : Job |- _ => destruct j; simpl in *
  | H : _ ∧ _ |- _ => destruct H
  end;
  subst; simpl in *;
  repeat match goal with
  | |- context [Z.eqb ?a ?b] => destruct (Z.eqb_spec a b); try lia
  end;
  try done.

Lemma train_counters_step e s s' :
  inv s → counters_inv s → step e s = Some s' → counters_inv s'.
Proof.
  intros Hinv Hc Hs id j' Hj'.
  destruct (decide (id = target e)) as [->|Hne].
  2:{ destruct (train_step_frame _ _ _ _ Hs Hne) as [E _].
      rewrite E in Hj'. eauto. }
  specialize (Hinv (target e)). specialize (Hc (target e)).
  destruct e as [t1 t2 tid req|now tid|tid msg|tid]; simpl in *.
  - destruct (jobs s !! tid); [done|]. destruct (tasks s !! tid); [done|].
    simplify_eq. simpl in Hj'.
    unfold train_model_start, loop_head in Hj'.
    rewrite lookup_insert_eq in Hj'.
    job_cases; simpl in Hj'; rewrite ?insert_insert_eq, lookup_insert_eq in Hj';
      simplify_eq; counters.
  - destruct (tasks s !! tid) as [[req i]|]; [|done]. simplify_eq.
    simpl in Hj'. unfold train_model_resume, loop_head in Hj'.
    destruct (jobs s !! tid) as [j|] eqn:Ej; [|done].
    rewrite lookup_insert_eq in Hj'.
    job_cases; simpl in Hj'; rewrite ?insert_insert_eq, lookup_insert_eq in Hj';
      simplify_eq; counters.
  - destruct (tasks s !! tid) as [[req i]|]; [|done]. simplify_eq.
    simpl in Hj'. unfold on_exception in Hj'.
    destruct (jobs s !! tid) as [j|] eqn:Ej; [|done].
    simpl in Hj'. rewrite lookup_insert_eq in Hj'. simplify_eq.
    specialize (Hc _ eq_refl). counters.
  - simplify_eq. simpl in Hj'. unfold cancel_training in Hj'.
    destruct (jobs s !! tid) as [j|] eqn:Ej;
      [|simpl in Hj'; by rewrite Ej in Hj'].
    specialize (Hc _ eq_refl).
    job_cases; simpl in Hj'; rewrite ?lookup_insert_eq, ?Ej in Hj';
      simplify_eq; counters.
Qed.

Lemma train_counters_reachable evs s :
  run evs init = Some s → counters_inv s.
Proof.
  assert (G : ∀ evs s0, inv s0 → counters_inv s0 →
                        run evs s0 = Some s → counters_inv s).
  { clear evs. induction evs as [|e evs IH]; intros s0 Hi Hc Hr; simpl in Hr.
    - by simplify_eq.
    - destruct (step e s0) as [s1|] eqn:Es; [|done].
      eauto using train_step_inv, train_counters_step. }
  eauto using train_inv_init, train_counters_init.
Qed.

(** *** A step never takes anything back *)

Lemma train_step_grows e s s' id j :
  inv s → step e s = Some s' → jobs s !! id = Some j →
  ∃ j', jobs s' !! id = Some j' ∧
        start_time j' = start_time j ∧ request j' = request j ∧
        epochs_done j ≤ epochs_done j'.
Proof.
  intros Hinv Hs Hj.
  destruct (decide (id = target e)) as [->|Hne].
  2:{ destruct (train_step_frame _ _ _ _ Hs Hne) as [E _].
      exists j. by rewrite E. }
  specialize (Hinv (target e)). rewrite Hj in Hinv.
  destruct e as [t1 t2 tid req|now tid|tid msg|tid]; simpl in *.
  - by rewrite Hj in Hs.
  - destruct (tasks s !! tid) as [[req i]|]; [|done]. simplify_eq. simpl.
    unfold train_model_resume, loop_head. rewrite Hj, lookup_insert_eq.
    destruct Hinv as (_ & _ & _ & _ & _ & _ & Hd & _).
    job_cases; simpl; rewrite ?insert_insert_eq, lookup_insert_eq;
      eexists; (split; [reflexivity|]); unfold epochs_done in *; simpl;
      (do 2 (split; [done|])); lia.
  - destruct (tasks s !! tid) as [[req i]|]; [|done]. simplify_eq. simpl.
    unfold on_exception. rewrite Hj. simpl. rewrite lookup_insert_eq.
    eexists. split; [reflexivity|]. done.
  - simplify_eq. simpl. unfold cancel_training. rewrite Hj.
    job_cases; simpl; rewrite ?lookup_insert_eq, ?Hj;
      eexists; (split; [reflexivity|]); done.
Qed.

Lemma train_run_grows evs : ∀ s s' id j,
  inv s → run evs s = Some s' → jobs s !! id = Some j →
  ∃ j', jobs s' !! id = Some j' ∧
        start_time j' = start_time j ∧ request j' = request j ∧
        epochs_done j ≤ epochs_done j'.
Proof.
  induction evs as [|e evs IH]; intros s s' id j Hinv Hr Hj; simpl in Hr.
  - simplify_eq. by exists j.
  - destruct (step e s) as [s1|] eqn:Es; [|done].
    destruct (train_step_grows _ _ _ _ _ Hinv Es Hj) as (j1 & Hj1 & E1 & E2 & E3).
    destruct (IH s1 s' id j1 (train_step_inv _ _ _ Hinv Es) Hr Hj1)
      as (j' & Hj' & F1 & F2 & F3).
    exists j'. split; [done|]. split; [congruence|]. split; [congruence|]. lia.
Qed.

End TrainingInvFacts.

Section TrainingInvariants.
Import Training TrainingFacts TrainingRun TrainingInvFacts.

(** X3. In every reachable state of the training service, whatever cancels
    and failures occurred, the progress fraction, the metrics and
    [current_epoch] of a job are those of its number [k] of finished epochs:
    before the first epoch the progress is 0, the metrics are empty and
    there is no [current_epoch]; afterwards the progress is [k / n], the
    metrics are loss [1 - (k/n) * 0.8], accuracy [(k/n) * 0.9] and epoch
    [k], and [current_epoch] is [k]. *)
Theorem X3_training_record_follows_epoch_count
    (evs : list Event) (s : Sys) (id : string) (j : Job) :
  run evs init = Some s → jobs s !! id = Some j →
  let k := epochs_done j in
  let n := epochs (request j) in
  0 ≤ k ∧
  (k = 0 → progress j = 0%float ∧ metrics j = None ∧ current_epoch j = None) ∧
  (k ≠ 0 → progress j = int_truediv k n ∧
           metrics j = Some (epoch_metrics n k) ∧
           current_epoch j = Some k).
Proof.
  intros Hr Hj k n.
  pose proof (train_counters_reachable _ _ Hr id j Hj) as (Hp & Hm & Hc).
  pose proof (train_reachable_inv _ _ Hr id) as Hi. rewrite Hj in Hi.
  simpl in Hi. destruct Hi as (_ & _ & _ & _ & Hi).
  assert (0 ≤ k).
  { subst k. destruct (tasks s !! id) as [[req i]|]; [|lia].
    destruct Hi as (_ & ? & ? & _). lia. }
  split; [done|]. unfold running_job in *. simpl in *. fold k in Hp, Hm, Hc.
  fold n in Hp, Hm. split; intros Hk.
  - rewrite Hk in *. done.
  - destruct (Z.eqb_spec k 0); done.
Qed.

(** X4. In every reachable state the progress read of a job in the table
    never reports the status pending; the reported epoch lies between 0 and
    the requested total; while the status is running the runner is suspended
    in the epoch after the reported one, which is below the total; and a
    completed job reports the total. *)
Theorem X4_training_progress_bounds
    (evs : list Event) (s : Sys) (id : string) (p : TrainingProgress) :
  run evs init = Some s → get_training_progress id (jobs s) = Some p →
  p_status p ≠ Pending ∧
  0 ≤ p_epoch p ≤ Z.max 0 (p_total_epochs p) ∧
  (p_status p = Running →
   p_epoch p < p_total_epochs p ∧
   ∃ req, tasks s !! id = Some (req, p_epoch p)) ∧
  (p_status p = Completed → p_epoch p = Z.max 0 (p_total_epochs p)).
Proof.
  intros Hr Hp. unfold get_training_progress in Hp.
  destruct (jobs s !! id) as [j|] eqn:Hj; [|done]. simplify_eq. simpl.
  pose proof (train_reachable_inv _ _ Hr id) as Hi. rewrite Hj in Hi.
  simpl in Hi. destruct Hi as (Hpend & _ & _ & -> & Hi).
  split; [done|].
  destruct (tasks s !! id) as [[req i]|].
  - destruct Hi as (<- & ? & ? & ?). split; [lia|]. split.
    + intros _. split; [lia|]. exists (request j). by subst.
    + intros Hc. naive_solver congruence.
  - destruct Hi as (Ht & ? & ?). split; [done|]. split; [|done].
    intros Hrun. by rewrite Hrun in Ht.
Qed.

(** X5. A job is never removed from the table, its [start_time] and its
    request never change, and its number of finished epochs never
    decreases, along any schedule from a reachable state. *)
Theorem X5_training_record_persists
    (evs evs' : list Event) (s s' : Sys) (id : string) (j : Job) :
  run evs init = Some s → run evs' s = Some s' → jobs s !! id = Some j →
  ∃ j', jobs s' !! id = Some j' ∧
        start_time j' = start_time j ∧ request j' = request j ∧
        epochs_done j ≤ epochs_done j'.
Proof.
  intros Hr. apply train_run_grows. by eapply train_reachable_inv.
Qed.
End TrainingInvariants.

(** X3 on a job of three epochs, cancelled after the first. *)
Lemma X3_witness :
  ∃ s j, Training.run
           [Training.Start 0 0 "job" (Training.sample_request 3);
            Training.Wake 1 "job"; Training.Cancel "job"] Training.init
         = Some s ∧
         Training.jobs s !! "job" = Some j ∧
         Training.current_epoch j = Some 1 ∧
         Training.metrics j = Some (TrainingRun.epoch_metrics 3 1).
Proof.
  eexists _, _. do 2 (split; [reflexivity|]).
  destruct (X3_training_record_follows_epoch_count
    [Training.Start 0 0 "job" (Training.sample_request 3);
     Training.Wake 1 "job"; Training.Cancel "job"] _ "job" _
    eq_refl eq_refl) as (_ & _ & H).
  destruct (H ltac:(discriminate)) as (_ & H2 & H3).
  split; [exact H3|exact H2].
Defined.

(** X4 on the same job. *)
Lemma X4_witness :
  ∃ s p, Training.run
           [Training.Start 0 0 "job" (Training.sample_request 3);
            Training.Wake 1 "job"] Training.init = Some s ∧
         Training.get_training_progress "job" (Training.jobs s) = Some p ∧
         Training.p_status p = Running ∧
         Training.p_epoch p < Training.p_total_epochs p.
Proof.
  eexists _, _. do 3 (split; [reflexivity|]).
  destruct (X4_training_progress_bounds
    [Training.Start 0 0 "job" (Training.sample_request 3);
     Training.Wake 1 "job"] _ "job" _ eq_refl eq_refl) as (_ & _ & H & _).
  exact (proj1 (H eq_refl)).
Defined.

(** X5 on a job observed after one epoch and again once it has completed. *)
Lemma X5_witness :
  ∃ s s' j j',
    Training.run [Training.Start 0 0 "job" (Training.sample_request 2);
                  Training.Wake 1 "job"] Training.init = Some s ∧
    Training.run [Training.Wake 2 "job"] s = Some s' ∧
    Training.jobs s !! "job" = Some j ∧
    Training.jobs s' !! "job" = Some j' ∧
    Training.start_time j' = Training.start_time j ∧
    Training.epochs_done j ≤ Training.epochs_done j'.
Proof.
  eexists _, _, _. 
  destruct (X5_training_record_persists
    [Training.Start 0 0 "job" (Training.sample_request 2);
     Training.Wake 1 "job"] [Training.Wake 2 "job"] _ _ "job" _
    eq_refl eq_refl eq_refl) as (j' & H1 & H2 & _ & H4).
  exists j'. do 3 (split; [reflexivity|]). auto.
Defined.

Module OptimizationRunFacts.
Import Optimization OptimizationFacts OptimizationRun.

Lemma opt_run_cons e evs s s1 :
  step e s = Some s1 → run (e :: evs) s = run evs s1.
Proof. simpl. by intros ->. Qed.

Lemma opt_run_append evs1 evs2 s s1 :
  run evs1 s = Some s1 → run (evs1 ++ evs2) s = run evs2 s1.
Proof.
  revert s. induction evs1 as [|e evs1 IH]; intros s; simpl.
  - by intros [= ->].
  - destruct (step e s); [apply IH|done].
Qed.

Lemma opt_history_after_length n k : length (history_after n k) = k.
Proof.
  induction k as [|k IH]; simpl; [done|].
  rewrite length_app, IH. simpl. lia.
Qed.

(** What an iteration makes of [running_job]. *)
Lemma opt_iteration_running req t0 (k : nat) :
  let n := max_iterations req in
  let i := Z.of_nat k in
  let cur := PrimFloat.add
               (PrimFloat.add 0.5 (PrimFloat.mul (int_truediv (i + 1) n) 0.4))
               (PrimFloat.mul (float_of_Z i) 0.001) in
  let best := py_max cur (best_score (running_job req t0 k)) in
  set_iteration (int_truediv (i + 1) n) best
    {| iteration := i + 1; score := cur; h_best_score := best;
       improvement :=
         PrimFloat.sub best (baseline_score (running_job req t0 k)) |}
    (running_job req t0 k)
  = running_job req t0 (S k).
Proof.
  intros n i cur best. unfold running_job, set_iteration.
  cbn [status start_time request progress best_score baseline_score history
       completion_time error history_after].
  subst best cur i n.
  replace (Z.of_nat (S k)) with (Z.of_nat k + 1) by lia.
  unfold best_of. rewrite last_snoc. done.
Qed.

Lemma opt_start_running s id req t_start t_done :
  jobs s !! id = None → tasks s !! id = None → 0 < max_iterations req →
  step (Start t_start t_done id req) s
  = Some {| jobs := <[id := running_job req t_start 0]> (jobs s);
            tasks := <[id := (req, 0)]> (tasks s) |}.
Proof.
  intros Hj Ht Hn. simpl. rewrite Hj, Ht.
  unfold optimize_module_start, loop_head. rewrite lookup_insert_eq.
  destruct (Z.ltb_spec 0 (max_iterations req)); [|lia]. done.
Qed.

Lemma opt_wake_running s id req t0 (k : nat) now :
  tasks s !! id = Some (req, Z.of_nat k) →
  jobs s !! id = Some (running_job req t0 k) →
  Z.of_nat k + 1 < max_iterations req →
  step (Wake now id) s
  = Some {| jobs := <[id := running_job req t0 (S k)]> (jobs s);
            tasks := <[id := (req, Z.of_nat k + 1)]> (tasks s) |}.
Proof.
  intros Ht Hj Hlt. cbn [step]. rewrite Ht.
  unfold optimize_module_resume. rewrite Hj.
  rewrite opt_iteration_running.
  unfold loop_head. rewrite lookup_insert_eq.
  destruct (Z.ltb_spec (Z.of_nat k + 1) (max_iterations req)); [|lia]. done.
Qed.

Lemma opt_wake_last s id req t0 (k : nat) now :
  tasks s !! id = Some (req, Z.of_nat k) →
  jobs s !! id = Some (running_job req t0 k) →
  Z.of_nat k + 1 = max_iterations req →
  step (Wake now id) s
  = Some {| jobs := <[id := set_completion_time now
                            (set_status Completed (running_job req t0 (S k)))]>
                      (jobs s);
            tasks := delete id (tasks s) |}.
Proof.
  intros Ht Hj Hlt. cbn [step]. rewrite Ht.
  unfold optimize_module_resume. rewrite Hj.
  rewrite opt_iteration_running.
  unfold loop_head. rewrite lookup_insert_eq.
  destruct (Z.ltb_spec (Z.of_nat k + 1) (max_iterations req)); [lia|].
  cbn [fst snd settle]. by rewrite insert_insert_eq.
Qed.

Lemma opt_run_wakes times : ∀ s id req t0 (k : nat),
  tasks s !! id = Some (req, Z.of_nat k) →
  jobs s !! id = Some (running_job req t0 k) →
  Z.of_nat (k + length times) < max_iterations req →
  ∃ s', run (wakes id times) s = Some s' ∧
        tasks s' !! id = Some (req, Z.of_nat (k + length times)) ∧
        jobs s' !! id = Some (running_job req t0 (k + length times)) ∧
        ∀ id', id' ≠ id → jobs s' !! id' = jobs s !! id' ∧
                          tasks s' !! id' = tasks s !! id'.
Proof.
  induction times as [|t times IH]; intros s id req t0 k Ht Hj Hlt.
  - exists s. simpl. rewrite Nat.add_0_r. done.
  - rewrite length_cons in *.
    replace (k + S (length times))%nat with (S k + length times)%nat
      in * by lia.
    change (wakes id (t :: times)) with (Wake t id :: wakes id times).
    rewrite (opt_run_cons _ _ _ _
               (opt_wake_running s id req t0 k t Ht Hj ltac:(lia))).
    destruct (IH {| jobs := <[id := running_job req t0 (S k)]> (jobs s);
                    tasks := <[id := (req, Z.of_nat k + 1)]> (tasks s) |}
                 id req t0 (S k)) as (s' & Hr & Ht' & Hj' & Hfr).
    + cbn [tasks]. rewrite lookup_insert_eq. do 2 f_equal. lia.
    + apply lookup_insert_eq.
    + lia.
    + exists s'. do 3 (split; [done|]).
      intros id' Hne. destruct (Hfr id' Hne) as [-> ->]. simpl.
      by rewrite !lookup_insert_ne.
Qed.

Lemma opt_start_wakes s0 id req t_start t_done times :
  jobs s0 !! id = None → tasks s0 !! id = None →
  Z.of_nat (length times) < max_iterations req →
  ∃ s, run (Start t_start t_done id req :: wakes id times) s0 = Some s ∧
       jobs s !! id = Some (running_job req t_start (length times)) ∧
       tasks s !! id = Some (req, Z.of_nat (length times)) ∧
       (∀ id', id' ≠ id → jobs s !! id' = jobs s0 !! id' ∧
                          tasks s !! id' = tasks s0 !! id').
Proof.
  intros Hj Ht Hlt.
  rewrite (opt_run_cons _ _ _ _
             (opt_start_running s0 id req t_start t_done Hj Ht ltac:(lia))).
  destruct (opt_run_wakes times
              {| jobs := <[id := running_job req t_start 0]> (jobs s0);
                 tasks := <[id := (req, 0)]> (tasks s0) |}
              id req t_start 0%nat) as (s & Hr & Ht' & Hj' & Hfr).
  - apply lookup_insert_eq.
  - apply lookup_insert_eq.
  - simpl. lia.
  - simpl in *. exists s. do 3 (split; [done|]).
    intros id' Hne. destruct (Hfr id' Hne) as [-> ->]. simpl.
    by rewrite !lookup_insert_ne.
Qed.

End OptimizationRunFacts.

Module OptimizationInvFacts.
Import Optimization OptimizationFacts OptimizationRun OptimizationRunFacts.

(** *** The scores of a record follow the length of its history *)

Lemma opt_scores_init : scores_inv init.
Proof. intros id j. simpl. by rewrite lookup_empty. Qed.

(** A record that agrees with [running_job] still does after an iteration. *)
Lemma opt_scores_iteration j i :
  scores_of j → Z.of_nat (length (history j)) = i →
  baseline_score j = 0.5%float →
  let n := max_iterations (request j) in
  let cur := PrimFloat.add
               (PrimFloat.add 0.5 (PrimFloat.mul (int_truediv (i + 1) n) 0.4))
               (PrimFloat.mul (float_of_Z i) 0.001) in
  let best := py_max cur (best_score j) in
  scores_of
    (set_iteration (int_truediv (i + 1) n) best
       {| iteration := i + 1; score := cur; h_best_score := best;
          improvement := PrimFloat.sub best (baseline_score j) |} j).
Proof.
  intros (Hp & Hb & Hh) Hi Hbase n cur best.
  pose proof (opt_iteration_running (request j) (start_time j)
                (length (history j))) as E.
  cbv zeta in E. rewrite Hi in E.
  unfold scores_of.
  cbn [set_iteration request start_time history].
  rewrite length_app. cbn [length]. rewrite Nat.add_1_r, <- E.
  set (r0 := running_job (request j) (start_time j) (length (history j))) in *.
  cbn [set_iteration progress best_score history].
  subst best cur n. rewrite Hb, Hh, Hbase. done.
Qed.

Lemma opt_scores_step e s s' :
  inv s → scores_inv s → step e s = Some s' → scores_inv s'.
Proof.
  intros Hinv Hc Hs id j' Hj'.
  destruct (decide (id = target e)) as [->|Hne].
  2:{ destruct (opt_step_frame _ _ _ _ Hs Hne) as [E _].
      rewrite E in Hj'. eauto. }
  specialize (Hinv (target e)). specialize (Hc (target e)).
  destruct e as [t1 t2 tid req|now tid|tid msg|tid]; simpl in *.
  - destruct (jobs s !! tid); [done|]. destruct (tasks s !! tid); [done|].
    simplify_eq. simpl in Hj'.
    unfold optimize_module_start, loop_head in Hj'.
    rewrite lookup_insert_eq in Hj'.
    job_cases; simpl in Hj'; rewrite ?insert_insert_eq, lookup_insert_eq in Hj';
      by simplify_eq.
  - destruct (tasks s !! tid) as [[req i]|]; [|done]. simplify_eq.
    simpl in Hj'. unfold optimize_module_resume, loop_head in Hj'.
    destruct (jobs s !! tid) as [j|] eqn:Ej; [|done].
    rewrite lookup_insert_eq in Hj'.
    destruct Hinv as (_ & _ & _ & Hbase & _ & <- & _ & Hlen & _).
    pose proof (opt_scores_iteration j i (Hc _ eq_refl) Hlen Hbase) as Hnew.
    cbn zeta in Hnew.
    job_cases; simpl in Hj'; rewrite ?insert_insert_eq, lookup_insert_eq in Hj';
      simplify_eq; exact Hnew.
  - destruct (tasks s !! tid) as [[req i]|]; [|done]. simplify_eq.
    simpl in Hj'. unfold on_exception in Hj'.
    destruct (jobs s !! tid) as [j|] eqn:Ej; [|done].
    simpl in Hj'. rewrite lookup_insert_eq in Hj'. simplify_eq.
    exact (Hc _ eq_refl).
  - simplify_eq. simpl in Hj'. unfold cancel_optimization in Hj'.
    destruct (jobs s !! tid) as [j|] eqn:Ej;
      [|simpl in Hj'; by rewrite Ej in Hj'].
    specialize (Hc _ eq_refl).
    job_cases; simpl in Hj'; rewrite ?lookup_insert_eq, ?Ej in Hj';
      by simplify_eq.
Qed.

Lemma opt_scores_reachable evs s :
  run evs init = Some s → scores_inv s.
Proof.
  assert (G : ∀ evs s0, inv s0 → scores_inv s0 →
                        run evs s0 = Some s → scores_inv s).
  { clear evs. induction evs as [|e evs IH]; intros s0 Hi Hc Hr; simpl in Hr.
    - by simplify_eq.
    - destruct (step e s0) as [s1|] eqn:Es; [|done].
      eauto using opt_step_inv, opt_scores_step. }
  eauto using opt_inv_init, opt_scores_init.
Qed.

End OptimizationInvFacts.

Module OptimizationScoreFacts.
Import Optimization OptimizationFacts OptimizationRun OptimizationRunFacts.

Lemma opt_rising_lookup l : ∀ prev (k : nat) x,
  rising prev l = true → l !! k = Some x →
  let p := match k with
           | O => prev
           | S k' => match l !! k' with Some y => y | None => prev end
           end in
  PrimFloat.ltb p x = true ∧ PrimFloat.ltb x p = false.
Proof.
  induction l as [|y l IH]; intros prev k x Hr Hk; [done|].
  simpl in Hr. apply andb_prop in Hr as [Hr Hrest].
  apply andb_prop in Hr as [H1 H2]. apply negb_true_iff in H2.
  destruct k as [|k]; simpl in *.
  - by simplify_eq.
  - destruct (IH y k x Hrest Hk) as [G1 G2].
    destruct k as [|k]; simpl in *; [done|].
    destruct (l !! k) eqn:E; simpl in *; [done|].
    apply lookup_ge_None in E. apply lookup_lt_Some in Hk. lia.
Qed.

(** The scores of every valid request rise: all 1000 values of
    [max_iterations] are evaluated. *)
Lemma opt_all_scores_rise : forallb scores_rise (seqZ 1 1000) = true.
Proof. vm_compute. reflexivity. Qed.

Lemma opt_scores_rise n : 1 ≤ n ≤ 1000 → scores_rise n = true.
Proof.
  intros Hn. pose proof opt_all_scores_rise as H.
  rewrite forallb_forall in H. apply H.
  apply list_elem_of_In, elem_of_seqZ. lia.
Qed.

Lemma opt_scores_from_lookup n (f : nat) : ∀ i (k : nat),
  (k < f)%nat →
  scores_from n i f !! k = Some (iteration_score n (i + Z.of_nat k)).
Proof.
  induction f as [|f IH]; intros i k Hk; [lia|].
  destruct k as [|k]; cbn [scores_from lookup list_lookup].
  - by rewrite Z.add_0_r.
  - change ((iteration_score n i :: scores_from n (i + 1) f) !! S k)
      with (scores_from n (i + 1) f !! k).
    rewrite IH by lia. do 2 f_equal. lia.
Qed.

Lemma opt_score_lookup n (k : nat) :
  Z.of_nat k < n →
  scores_from n 0 (Z.to_nat n) !! k = Some (iteration_score n (Z.of_nat k)).
Proof.
  intros Hk. rewrite opt_scores_from_lookup by lia. by rewrite Z.add_0_l.
Qed.

Lemma opt_rising_history_snoc n (k : nat) :
  rising_history n (S k) = rising_history n k ++ [rising_entry n (Z.of_nat k)].
Proof. unfold rising_history. by rewrite seqZ_S, fmap_app. Qed.

Lemma opt_best_of_rising n (k : nat) :
  best_of (rising_history n k)
  = match k with
    | O => 0%float
    | S k' => iteration_score n (Z.of_nat k')
    end.
Proof.
  destruct k as [|k]; [done|].
  rewrite opt_rising_history_snoc. unfold best_of. by rewrite last_snoc.
Qed.

(** With rising scores the best score of an entry is its own score. *)
Lemma opt_history_rising n (k : nat) :
  scores_rise n = true → Z.of_nat k ≤ n →
  history_after n k = rising_history n k.
Proof.
  intros Hrise. induction k as [|k IH]; intros Hk; [done|].
  cbn [history_after]. rewrite IH by lia.
  rewrite opt_rising_history_snoc. f_equal. f_equal.
  rewrite opt_best_of_rising.
  destruct (opt_rising_lookup _ 0%float k _ Hrise
              (opt_score_lookup n k ltac:(lia))) as [_ Hlt].
  unfold next_entry, rising_entry, py_max.
  destruct k as [|k].
  - cbn zeta iota in Hlt. by rewrite Hlt.
  - cbn zeta iota in Hlt.
    rewrite opt_score_lookup in Hlt by lia.
    by rewrite Hlt.
Qed.

End OptimizationScoreFacts.

Module OptimizationGrowFacts.
Import Optimization OptimizationFacts.

(** *** A step never takes anything back *)

Lemma opt_step_grows e s s' id j :
  step e s = Some s' → jobs s !! id = Some j →
  ∃ j', jobs s' !! id = Some j' ∧
        start_time j' = start_time j ∧ request j' = request j ∧
        baseline_score j' = baseline_score j ∧
        history j `prefix_of` history j'.
Proof.
  intros Hs Hj.
  destruct (decide (id = target e)) as [->|Hne].
  2:{ destruct (opt_step_frame _ _ _ _ Hs Hne) as [E _].
      exists j. by rewrite E. }
  destruct e as [t1 t2 tid req|now tid|tid msg|tid]; simpl in *.
  - by rewrite Hj in Hs.
  - destruct (tasks s !! tid) as [[req i]|]; [|done]. simplify_eq. simpl.
    unfold optimize_module_resume, loop_head. rewrite Hj, lookup_insert_eq.
    job_cases; simpl; rewrite ?insert_insert_eq, lookup_insert_eq;
      eexists; (split; [reflexivity|]); simpl;
      (do 3 (split; [done|])); by apply prefix_app_r.
  - destruct (tasks s !! tid) as [[req i]|]; [|done]. simplify_eq. simpl.
    unfold on_exception. rewrite Hj. simpl. rewrite lookup_insert_eq.
    eexists. split; [reflexivity|]. done.
  - simplify_eq. simpl. unfold cancel_optimization. rewrite Hj.
    job_cases; simpl; rewrite ?lookup_insert_eq, ?Hj;
      eexists; (split; [reflexivity|]); done.
Qed.

Lemma opt_run_grows evs : ∀ s s' id j,
  run evs s = Some s' → jobs s !! id = Some j →
  ∃ j', jobs s' !! id = Some j' ∧
        start_time j' = start_time j ∧ request j' = request j ∧
        baseline_score j' = baseline_score j ∧
        history j `prefix_of` history j'.
Proof.
  induction evs as [|e evs IH]; intros s s' id j Hr Hj; simpl in Hr.
  - simplify_eq. by exists j.
  - destruct (step e s) as [s1|] eqn:Es; [|done].
    destruct (opt_step_grows _ _ _ _ _ Es Hj)
      as (j1 & Hj1 & E1 & E2 & E3 & E4).
    destruct (IH s1 s' id j1 Hr Hj1) as (j' & Hj' & F1 & F2 & F3 & F4).
    exists j'. split; [done|]. do 3 (split; [congruence|]).
    by etrans.
Qed.

End OptimizationGrowFacts.

Section OptimizationRuns.
Import Optimization OptimizationFacts OptimizationRun OptimizationRunFacts.
Import OptimizationInvFacts OptimizationScoreFacts OptimizationGrowFacts.

(** X6. Progress of an undisturbed optimization job. After the runner has
    started and [k] of its sleeps have returned, [k] below the number of
    iterations and no cancel in between, the job is running with a history
    of [k] entries, the progress read reports status running, iteration [k],
    the requested total and the scores of the last entry (zeros before the
    first), and no other job of the table has changed. *)
Theorem X6_progress_after_k_iterations (s0 : Sys) (id : string)
    (req : OptimizationRequest) (t_start t_done : Z) (times : list Z) :
  jobs s0 !! id = None → tasks s0 !! id = None →
  Z.of_nat (length times) < max_iterations req →
  let k := length times in
  let h := history_after (max_iterations req) k in
  ∃ s, run (Start t_start t_done id req :: wakes id times) s0 = Some s ∧
       jobs s !! id = Some (running_job req t_start k) ∧
       tasks s !! id = Some (req, Z.of_nat k) ∧
       get_optimization_progress id (jobs s)
       = Some {| p_optimization_id := id; p_status := Running;
                 p_iteration := Z.of_nat k;
                 p_total_iterations := max_iterations req;
                 p_current_score := from_option score 0%float (last h);
                 p_best_score := best_of h;
                 p_improvement := from_option improvement 0%float (last h) |} ∧
       (∀ id', id' ≠ id → jobs s !! id' = jobs s0 !! id').
Proof.
  intros Hj Ht Hlt k h.
  destruct (opt_start_wakes s0 id req t_start t_done times Hj Ht Hlt)
    as (s & Hr & Hj' & Ht' & Hfr).
  exists s. do 3 (split; [done|]). split.
  - unfold get_optimization_progress. rewrite Hj'.
    unfold running_job. cbn [history status request].
    by rewrite opt_history_after_length.
  - intros id' Hne. by destruct (Hfr id' Hne).
Qed.

(** X7. Completion of an undisturbed optimization job. If the runner
    starts and every one of its [n >= 1] sleeps returns with no cancel in
    between, the job ends completed with a history of [n] entries, and
    [get_optimization_results] then returns a result with
    [iterations_completed = n], the best score of the history as
    [final_score], and the seconds between the clock read at start and the
    one read after the last sleep as [optimization_time]. The coroutine is
    gone: no further wake-up is possible. *)
Theorem X7_optimization_runs_to_completion (s0 : Sys) (id : string)
    (req : OptimizationRequest) (t_start t_done t_end : Z) (times : list Z) :
  jobs s0 !! id = None → tasks s0 !! id = None →
  max_iterations req = Z.of_nat (length times) + 1 →
  let n := max_iterations req in
  ∃ s j r,
    run (Start t_start t_done id req :: wakes id (times ++ [t_end])) s0
    = Some s ∧
    jobs s !! id = Some j ∧ tasks s !! id = None ∧
    status j = Completed ∧
    history j = history_after n (S (length times)) ∧
    Z.of_nat (length (history j)) = n ∧
    start_time j = t_start ∧ completion_time j = Some t_end ∧
    get_optimization_results id (jobs s) = Return (Some r) ∧
    iterations_completed r = n ∧
    final_score r = best_of (history j) ∧
    optimization_time r = total_seconds (t_end - t_start) ∧
    optimization_history r = history j ∧
    step (Wake t_end id) s = None ∧
    (∀ id', id' ≠ id → jobs s !! id' = jobs s0 !! id').
Proof.
  intros Hj Ht Hn n.
  destruct (opt_start_wakes s0 id req t_start t_done times Hj Ht
              ltac:(lia)) as (s1 & Hr & Hj1 & Ht1 & Hfr).
  pose proof (opt_wake_last s1 id req t_start _ t_end Ht1 Hj1 ltac:(lia))
    as Hlast.
  unfold wakes. rewrite fmap_app, app_comm_cons.
  rewrite (opt_run_append _ _ _ _ Hr).
  change ((λ t, Wake t id) <$> [t_end]) with [Wake t_end id].
  rewrite (opt_run_cons _ _ _ _ Hlast).
  eexists _, _, _. split; [reflexivity|]. cbn [jobs tasks].
  rewrite lookup_insert_eq, lookup_delete_eq.
  split; [reflexivity|]. split; [done|].
  unfold get_optimization_results. rewrite lookup_insert_eq.
  unfold running_job, set_completion_time, set_status.
  cbn [status history start_time completion_time baseline_score best_score].
  split; [done|]. split; [done|].
  split; [rewrite opt_history_after_length; subst n; lia|].
  do 2 (split; [done|]).
  rewrite decide_True by done.
  change (PrimFloat.eqb 0.5 0) with false. cbn iota.
  split; [reflexivity|]. cbn [iterations_completed final_score
    optimization_time optimization_history].
  split; [rewrite opt_history_after_length; subst n; lia|].
  do 3 (split; [done|]).
  split; [by cbn [step tasks]; rewrite lookup_delete_eq|].
  intros id' Hne. rewrite lookup_insert_ne by done.
  by destruct (Hfr id' Hne).
Qed.

(** X8. In every reachable state of the optimization service, also after
    cancels and failed steps, the history of a job is the one its number of
    finished iterations determines, the stored ["best_score"] (read by the
    job list and, as [final_score], by the results) is the best score of
    the last history entry (0.0 for an empty history), and the progress read
    reports that same best score. *)
Theorem X8_best_score_agrees_with_history
    (evs : list Event) (s : Sys) (id : string) (j : Job) :
  run evs init = Some s → jobs s !! id = Some j →
  history j
  = history_after (max_iterations (request j)) (length (history j)) ∧
  best_score j = best_of (history j) ∧
  ∃ p, get_optimization_progress id (jobs s) = Some p ∧
       p_best_score p = best_score j.
Proof.
  intros Hr Hj.
  destruct (opt_scores_reachable _ _ Hr id j Hj) as (_ & Hb & Hh).
  unfold running_job in Hb, Hh. cbn [best_score history] in Hb, Hh.
  split; [exact Hh|]. rewrite <- Hh in Hb. split; [exact Hb|].
  unfold get_optimization_progress. rewrite Hj.
  eexists. split; [reflexivity|]. by rewrite Hb.
Qed.

(** X9. For a request within the bounds of the request model
    ([1 <= max_iterations <= 1000]) the simulated scores rise strictly: in
    every reachable state the entry of iteration [i + 1] has the score
    [0.5 + ((i+1)/n) * 0.4 + i * 0.001], its best score is that very score,
    its improvement is the score minus 0.5, and each entry scores strictly
    above the one before it. *)
Theorem X9_scores_of_valid_request_rise
    (evs : list Event) (s : Sys) (id : string) (j : Job) :
  run evs init = Some s → jobs s !! id = Some j →
  1 ≤ max_iterations (request j) ≤ 1000 →
  let n := max_iterations (request j) in
  history j = rising_history n (length (history j)) ∧
  (∀ (k : nat) e, history j !! k = Some e →
     score e = iteration_score n (Z.of_nat k) ∧
     h_best_score e = score e ∧
     improvement e = PrimFloat.sub (score e) 0.5) ∧
  (∀ (k : nat) e1 e2,
     history j !! k = Some e1 → history j !! S k = Some e2 →
     PrimFloat.ltb (score e1) (score e2) = true).
Proof.
  intros Hr Hj Hn n.
  destruct (opt_scores_reachable _ _ Hr id j Hj) as (_ & _ & Hh).
  unfold running_job in Hh. cbn [history] in Hh. fold n in Hh.
  pose proof (opt_reachable_inv _ _ Hr id) as Hi. rewrite Hj in Hi.
  simpl in Hi. destruct Hi as (_ & _ & _ & _ & _ & Hi).
  assert (Hlen : Z.of_nat (length (history j)) ≤ n).
  { unfold steps_done in Hi. subst n.
    destruct (tasks s !! id) as [[req i]|].
    - destruct Hi as (Hreq & ? & ? & _). rewrite Hreq. lia.
    - destruct Hi as (_ & ? & _). lia. }
  pose proof (opt_scores_rise n Hn) as Hrise.
  rewrite (opt_history_rising n _ Hrise Hlen) in Hh.
  assert (Hent : ∀ (k : nat) e, history j !! k = Some e →
                                e = rising_entry n (Z.of_nat k)).
  { intros k e He. rewrite Hh in He. unfold rising_history in He.
    rewrite list_lookup_fmap in He.
    destruct (seqZ 0 (Z.of_nat (length (history j))) !! k) as [i|] eqn:E;
      [|done].
    apply lookup_seqZ in E as [-> _]. simpl in He. by simplify_eq. }
  split; [exact Hh|]. split.
  - intros k e He. by rewrite (Hent k e He).
  - intros k e1 e2 H1 H2.
    rewrite (Hent _ _ H1), (Hent _ _ H2). cbn [score rising_entry].
    assert (Z.of_nat (S k) < n).
    { apply lookup_lt_Some in H2. lia. }
    destruct (opt_rising_lookup _ 0%float (S k) _ Hrise
                (opt_score_lookup n (S k) ltac:(lia))) as [Hlt _].
    cbn zeta iota in Hlt. rewrite opt_score_lookup in Hlt by lia.
    exact Hlt.
Qed.

(** X10. An optimization job is never removed from the table; its
    [start_time], request and baseline never change; and its history only
    grows at the end: the history seen earlier is a prefix of every later
    one, along any schedule of runner segments, failures and cancels. *)
Theorem X10_history_is_append_only
    (evs : list Event) (s s' : Sys) (id : string) (j : Job) :
  run evs s = Some s' → jobs s !! id = Some j →
  ∃ j', jobs s' !! id = Some j' ∧
        start_time j' = start_time j ∧ request j' = request j ∧
        baseline_score j' = baseline_score j ∧
        history j `prefix_of` history j'.
Proof. apply opt_run_grows. Qed.

(** X11. In every reachable state the progress read of an optimization job
    never reports the status pending; the reported iteration lies between 0
    and the requested total; while the status is running the runner is
    suspended in the iteration after the reported one, which is below the
    total; and a completed job reports the total. *)
Theorem X11_optimization_progress_bounds
    (evs : list Event) (s : Sys) (id : string) (p : OptimizationProgress) :
  run evs init = Some s → get_optimization_progress id (jobs s) = Some p →
  p_status p ≠ Pending ∧
  0 ≤ p_iteration p ≤ Z.max 0 (p_total_iterations p) ∧
  (p_status p = Running →
   p_iteration p < p_total_iterations p ∧
   ∃ req, tasks s !! id = Some (req, p_iteration p)) ∧
  (p_status p = Completed → p_iteration p = Z.max 0 (p_total_iterations p)).
Proof.
  intros Hr Hp. unfold get_optimization_progress in Hp.
  destruct (jobs s !! id) as [j|] eqn:Hj; [|done]. simplify_eq. simpl.
  pose proof (opt_reachable_inv _ _ Hr id) as Hi. rewrite Hj in Hi.
  simpl in Hi. destruct Hi as (Hpend & _ & _ & _ & _ & Hi).
  unfold steps_done in Hi.
  split; [done|].
  destruct (tasks s !! id) as [[req i]|].
  - destruct Hi as (<- & ? & ? & ?). split; [lia|]. split.
    + intros _. split; [lia|]. exists (request j). by subst.
    + intros Hc. naive_solver congruence.
  - destruct Hi as (Ht & ? & ?). split; [done|]. split; [|done].
    intros Hrun. by rewrite Hrun in Ht.
Qed.
End OptimizationRuns.

(** X6 on a job of three iterations after two of them. *)
Lemma X6_witness :
  ∃ s, Optimization.run
         [Optimization.Start 0 0 "job" (Optimization.sample_request 3);
          Optimization.Wake 1 "job"; Optimization.Wake 2 "job"]
         Optimization.init = Some s ∧
       Optimization.jobs s !! "job"
       = Some (OptimizationRun.running_job (Optimization.sample_request 3) 0 2).
Proof.
  destruct (X6_progress_after_k_iterations Optimization.init "job"
              (Optimization.sample_request 3) 0 0 [1; 2]
              eq_refl eq_refl eq_refl) as (s & H1 & H2 & _).
  exists s. split; [exact H1|exact H2].
Defined.

(** X7 on a job of two iterations. *)
Lemma X7_witness :
  ∃ s r, Optimization.run
           [Optimization.Start 0 0 "job" (Optimization.sample_request 2);
            Optimization.Wake 1 "job"; Optimization.Wake 2 "job"]
           Optimization.init = Some s ∧
         Optimization.get_optimization_results "job" (Optimization.jobs s)
         = Optimization.Return (Some r) ∧
         Optimization.iterations_completed r = 2.
Proof.
  destruct (X7_optimization_runs_to_completion Optimization.init "job"
              (Optimization.sample_request 2) 0 0 2 [1]
              eq_refl eq_refl eq_refl)
    as (s & j & r & H1 & _ & _ & _ & _ & _ & _ & _ & H9 & H10 & _).
  exists s, r. auto.
Defined.

(** X8 on a job of three iterations, cancelled during the second. *)
Lemma X8_witness :
  ∃ s j, Optimization.run
           [Optimization.Start 0 0 "job" (Optimization.sample_request 3);
            Optimization.Wake 1 "job"; Optimization.Cancel "job";
            Optimization.Wake 2 "job"] Optimization.init = Some s ∧
         Optimization.jobs s !! "job" = Some j ∧
         Optimization.status j = Cancelled ∧
         Optimization.best_score j
         = OptimizationRun.best_of (Optimization.history j).
Proof.
  eexists _, _. do 3 (split; [reflexivity|]).
  exact (proj1 (proj2 (X8_best_score_agrees_with_history
    [Optimization.Start 0 0 "job" (Optimization.sample_request 3);
     Optimization.Wake 1 "job"; Optimization.Cancel "job";
     Optimization.Wake 2 "job"] _ "job" _ eq_refl eq_refl))).
Defined.

(** X9 on a job of three iterations after two of them. *)
Lemma X9_witness :
  ∃ s j, Optimization.run
           [Optimization.Start 0 0 "job" (Optimization.sample_request 3);
            Optimization.Wake 1 "job"; Optimization.Wake 2 "job"]
           Optimization.init = Some s ∧
         Optimization.jobs s !! "job" = Some j ∧
         1 ≤ Optimization.max_iterations (Optimization.request j) ≤ 1000 ∧
         Optimization.history j = OptimizationRun.rising_history 3 2.
Proof.
  eexists _, _. do 2 (split; [reflexivity|]).
  split; [simpl; lia|].
  exact (proj1 (X9_scores_of_valid_request_rise
    [Optimization.Start 0 0 "job" (Optimization.sample_request 3);
     Optimization.Wake 1 "job"; Optimization.Wake 2 "job"] _ "job" _
    eq_refl eq_refl ltac:(simpl; lia))).
Defined.

(** X10 on a job observed after one iteration and again after two. *)
Lemma X10_witness :
  ∃ s s' j j',
    Optimization.run
      [Optimization.Start 0 0 "job" (Optimization.sample_request 3);
       Optimization.Wake 1 "job"] Optimization.init = Some s ∧
    Optimization.run [Optimization.Wake 2 "job"] s = Some s' ∧
    Optimization.jobs s !! "job" = Some j ∧
    Optimization.jobs s' !! "job" = Some j' ∧
    Optimization.history j `prefix_of` Optimization.history j'.
Proof.
  eexists _, _, _.
  destruct (X10_history_is_append_only
    [Optimization.Wake 2 "job"]
    (default Optimization.init
       (Optimization.run
          [Optimization.Start 0 0 "job" (Optimization.sample_request 3);
           Optimization.Wake 1 "job"] Optimization.init))
    _ "job" _ eq_refl eq_refl) as (j' & H1 & _ & _ & _ & H5).
  exists j'. do 3 (split; [reflexivity|]). auto.
Defined.

(** X11 on a job of three iterations after one of them. *)
Lemma X11_witness :
  ∃ s p, Optimization.run
           [Optimization.Start 0 0 "job" (Optimization.sample_request 3);
            Optimization.Wake 1 "job"] Optimization.init = Some s ∧
         Optimization.get_optimization_progress "job" (Optimization.jobs s)
         = Some p ∧
         Optimization.p_status p = Running ∧
         Optimization.p_iteration p < Optimization.p_total_iterations p.
Proof.
  eexists _, _. do 3 (split; [reflexivity|]).
  destruct (X11_optimization_progress_bounds
    [Optimization.Start 0 0 "job" (Optimization.sample_request 3);
     Optimization.Wake 1 "job"] _ "job" _ eq_refl eq_refl) as (_ & _ & H & _).
  exact (proj1 (H eq_refl)).
Defined.

Section FailedSteps.

(** X12. A failing step of a training job. In a reachable state, when the
    step the runner awaits raises, the exception handler marks the job
    failed and stores the message of the exception as ["error"]; the failing
    epoch is not counted (the epoch count, metrics and progress stay as they
    were), no [completion_time] is written, the coroutine ends, a later
    cancel returns [False], and the record never changes again. *)
Theorem X12_failed_training_step
    (evs : list Training.Event) (s : Training.Sys) (id msg : string)
    (req : Training.TrainingRequest) (i : Z) (j : Training.Job) :
  Training.run evs Training.init = Some s →
  Training.tasks s !! id = Some (req, i) →
  Training.jobs s !! id = Some j →
  ∃ s' j',
    Training.step (Training.StepError id msg) s = Some s' ∧
    Training.tasks s' !! id = None ∧
    Training.jobs s' !! id = Some j' ∧
    Training.status j' = Failed ∧
    Training.error j' = Some msg ∧
    Training.epochs_done j' = i ∧
    Training.metrics j' = Training.metrics j ∧
    Training.progress j' = Training.progress j ∧
    Training.completion_time j' = None ∧
    (Training.cancel_training id (Training.jobs s')).2 = false ∧
    ∀ evs' s'', Training.run evs' s' = Some s'' →
                Training.jobs s'' !! id = Some j'.
Proof.
  intros Hr Ht Hj.
  apply TrainingFacts.train_reachable_inv in Hr.
  destruct (Training.step (Training.StepError id msg) s) as [s'|] eqn:Hs;
    [|by simpl in Hs; rewrite Ht in Hs].
  pose proof (TrainingFacts.train_step_inv _ _ _ Hr Hs) as Hinv'.
  pose proof (Hr id) as Hi. rewrite Hj, Ht in Hi. simpl in Hi.
  destruct Hi as (_ & Hct & _ & _ & _ & _ & Hd & Hst).
  simpl in Hs. rewrite Ht in Hs. unfold Training.on_exception in Hs.
  rewrite Hj in Hs. simpl in Hs. simplify_eq.
  eexists _, _. split; [done|]. simpl.
  rewrite lookup_delete_eq, lookup_insert_eq.
  do 4 (split; [done|]). split; [first [exact Hd|done]|]. do 2 (split; [done|]).
  split; [|split].
  - simpl. destruct (Training.completion_time j) eqn:E; [|done].
    assert (is_Some (Some z)) as Hsome by done.
    apply Hct in Hsome. destruct Hst; congruence.
  - unfold Training.cancel_training. by rewrite lookup_insert_eq.
  - intros evs' s'' Hr'.
    eapply TrainingFacts.train_run_settled; [exact Hinv'| | |exact Hr']; simpl.
    + by rewrite lookup_insert_eq.
    + by rewrite lookup_delete_eq.
Qed.

(** X13. A failing step of an optimization job: the job is marked failed
    with the message as ["error"], the history, best score and progress
    stay as they were (the failing iteration leaves no entry), no
    [completion_time] is written, the coroutine ends,
    [get_optimization_results] returns [None], and the record never changes
    again. *)
Theorem X13_failed_optimization_step
    (evs : list Optimization.Event) (s : Optimization.Sys) (id msg : string)
    (req : Optimization.OptimizationRequest) (i : Z) (j : Optimization.Job) :
  Optimization.run evs Optimization.init = Some s →
  Optimization.tasks s !! id = Some (req, i) →
  Optimization.jobs s !! id = Some j →
  ∃ s' j',
    Optimization.step (Optimization.StepError id msg) s = Some s' ∧
    Optimization.tasks s' !! id = None ∧
    Optimization.jobs s' !! id = Some j' ∧
    Optimization.status j' = Failed ∧
    Optimization.error j' = Some msg ∧
    Optimization.history j' = Optimization.history j ∧
    Z.of_nat (length (Optimization.history j')) = i ∧
    Optimization.best_score j' = Optimization.best_score j ∧
    Optimization.completion_time j' = None ∧
    Optimization.get_optimization_results id (Optimization.jobs s')
    = Optimization.Return None ∧
    (Optimization.cancel_optimization id (Optimization.jobs s')).2 = false ∧
    ∀ evs' s'', Optimization.run evs' s' = Some s'' →
                Optimization.jobs s'' !! id = Some j'.
Proof.
  intros Hr Ht Hj.
  apply OptimizationFacts.opt_reachable_inv in Hr.
  destruct (Optimization.step (Optimization.StepError id msg) s) as [s'|] eqn:Hs;
    [|by simpl in Hs; rewrite Ht in Hs].
  pose proof (OptimizationFacts.opt_step_inv _ _ _ Hr Hs) as Hinv'.
  pose proof (Hr id) as Hi. rewrite Hj, Ht in Hi. simpl in Hi.
  destruct Hi as (_ & Hct & _ & _ & _ & _ & _ & Hd & Hst).
  simpl in Hs. rewrite Ht in Hs. unfold Optimization.on_exception in Hs.
  rewrite Hj in Hs. simpl in Hs. simplify_eq.
  eexists _, _. split; [done|]. simpl.
  rewrite lookup_delete_eq, lookup_insert_eq.
  do 5 (split; [done|]). split; [first [exact Hd|done]|]. split; [done|].
  split; [|split; [|split]].
  - simpl. destruct (Optimization.completion_time j) eqn:E; [|done].
    assert (is_Some (Some z)) as Hsome by done.
    apply Hct in Hsome. destruct Hst; congruence.
  - unfold Optimization.get_optimization_results.
    by rewrite lookup_insert_eq.
  - unfold Optimization.cancel_optimization. by rewrite lookup_insert_eq.
  - intros evs' s'' Hr'.
    eapply OptimizationFacts.opt_run_settled; [exact Hinv'| | |exact Hr']; simpl.
    + by rewrite lookup_insert_eq.
    + by rewrite lookup_delete_eq.
Qed.

(** X14. In every reachable state of either service a job record has an
    ["error"] key if and only if its status is failed; a failed job has no
    coroutine left and no [completion_time]. *)
Theorem X14_error_iff_failed
    (tevs : list Training.Event) (ts : Training.Sys) (tid : string)
    (tj : Training.Job)
    (oevs : list Optimization.Event) (os : Optimization.Sys) (oid : string)
    (oj : Optimization.Job) :
  Training.run tevs Training.init = Some ts →
  Training.jobs ts !! tid = Some tj →
  Optimization.run oevs Optimization.init = Some os →
  Optimization.jobs os !! oid = Some oj →
  ((is_Some (Training.error tj) ↔ Training.status tj = Failed) ∧
   (Training.status tj = Failed →
    Training.tasks ts !! tid = None ∧ Training.completion_time tj = None)) ∧
  ((is_Some (Optimization.error oj) ↔ Optimization.status oj = Failed) ∧
   (Optimization.status oj = Failed →
    Optimization.tasks os !! oid = None ∧
    Optimization.completion_time oj = None)).
Proof.
  intros Ht Htj Ho Hoj.
  apply TrainingFacts.train_reachable_inv in Ht. specialize (Ht tid).
  apply OptimizationFacts.opt_reachable_inv in Ho. specialize (Ho oid).
  rewrite Htj in Ht. rewrite Hoj in Ho. simpl in Ht, Ho.
  split.
  - destruct Ht as (_ & Hct & He & _ & Hrest). split; [exact He|].
    intros Hf. split.
    + destruct (Training.tasks ts !! tid) as [[req i]|]; [|done].
      destruct Hrest as (_ & _ & _ & [?|?]); congruence.
    + destruct (Training.completion_time tj) eqn:E; [|done].
      assert (is_Some (Some z)) as Hsome by done.
      apply Hct in Hsome. congruence.
  - destruct Ho as (_ & Hct & He & _ & _ & Hrest). split; [exact He|].
    intros Hf. split.
    + destruct (Optimization.tasks os !! oid) as [[req i]|]; [|done].
      destruct Hrest as (_ & _ & _ & [?|?]); congruence.
    + destruct (Optimization.completion_time oj) eqn:E; [|done].
      assert (is_Some (Some z)) as Hsome by done.
      apply Hct in Hsome. congruence.
Qed.
End FailedSteps.

(** X12 on a job of three epochs whose second epoch fails. *)
Lemma X12_witness :
  ∃ s s' j',
    Training.run [Training.Start 0 0 "job" (Training.sample_request 3);
                  Training.Wake 1 "job"] Training.init = Some s ∧
    Training.step (Training.StepError "job" "boom") s = Some s' ∧
    Training.jobs s' !! "job" = Some j' ∧
    Training.status j' = Failed ∧
    Training.error j' = Some "boom" ∧
    Training.epochs_done j' = 1.
Proof.
  eexists _.
  destruct (X12_failed_training_step
    [Training.Start 0 0 "job" (Training.sample_request 3);
     Training.Wake 1 "job"] _ "job" "boom" (Training.sample_request 3) 1 _
    eq_refl eq_refl eq_refl)
    as (s' & j' & H1 & _ & H3 & H4 & H5 & H6 & _).
  exists s', j'. split; [reflexivity|]. auto 10.
Defined.

(** X13 on a job of three iterations whose second iteration fails. *)
Lemma X13_witness :
  ∃ s s' j',
    Optimization.run
      [Optimization.Start 0 0 "job" (Optimization.sample_request 3);
       Optimization.Wake 1 "job"] Optimization.init = Some s ∧
    Optimization.step (Optimization.StepError "job" "boom") s = Some s' ∧
    Optimization.jobs s' !! "job" = Some j' ∧
    Optimization.status j' = Failed ∧
    Optimization.error j' = Some "boom" ∧
    Z.of_nat (length (Optimization.history j')) = 1.
Proof.
  eexists _.
  destruct (X13_failed_optimization_step
    [Optimization.Start 0 0 "job" (Optimization.sample_request 3);
     Optimization.Wake 1 "job"] _ "job" "boom"
    (Optimization.sample_request 3) 1 _ eq_refl eq_refl eq_refl)
    as (s' & j' & H1 & _ & H3 & H4 & H5 & _ & H7 & _).
  exists s', j'. split; [reflexivity|]. auto 10.
Defined.

(** X14 on two jobs whose first step fails. *)
Lemma X14_witness :
  ∃ ts tj os oj,
    Training.run [Training.Start 0 0 "job" (Training.sample_request 2);
                  Training.StepError "job" "boom"] Training.init = Some ts ∧
    Training.jobs ts !! "job" = Some tj ∧
    Optimization.run
      [Optimization.Start 0 0 "job" (Optimization.sample_request 2);
       Optimization.StepError "job" "boom"] Optimization.init = Some os ∧
    Optimization.jobs os !! "job" = Some oj ∧
    Training.status tj = Failed ∧ Optimization.status oj = Failed ∧
    (is_Some (Training.error tj) ↔ Training.status tj = Failed) ∧
    (is_Some (Optimization.error oj) ↔ Optimization.status oj = Failed).
Proof.
  eexists _, _, _, _. do 6 (split; [reflexivity|]).
  destruct (X14_error_iff_failed
    [Training.Start 0 0 "job" (Training.sample_request 2);
     Training.StepError "job" "boom"] _ "job" _
    [Optimization.Start 0 0 "job" (Optimization.sample_request 2);
     Optimization.StepError "job" "boom"] _ "job" _
    eq_refl eq_refl eq_refl eq_refl) as [[H1 _] [H2 _]].
  split; [exact H1|exact H2].
Defined.

Module IsolationFacts.

(** Two states that hold the same record and the same coroutine for a job
    make the same step on it. *)
Lemma train_step_local e s1 s2 s1' :
  Training.jobs s1 !! Training.target e = Training.jobs s2 !! Training.target e →
  Training.tasks s1 !! Training.target e
  = Training.tasks s2 !! Training.target e →
  Training.step e s1 = Some s1' →
  ∃ s2', Training.step e s2 = Some s2' ∧
         Training.jobs s1' !! Training.target e
         = Training.jobs s2' !! Training.target e ∧
         Training.tasks s1' !! Training.target e
         = Training.tasks s2' !! Training.target e.
Proof.
  intros Hj Ht Hs.
  destruct e as [t1 t2 tid req|now tid|tid msg|tid]; simpl in *.
  - rewrite <- Hj, <- Ht.
    destruct (Training.jobs s1 !! tid); [done|].
    destruct (Training.tasks s1 !! tid); [done|]. simplify_eq.
    eexists. split; [reflexivity|]. simpl.
    unfold Training.train_model_start, Training.loop_head.
    rewrite !lookup_insert_eq.
    job_cases; written; done.
  - rewrite <- Ht.
    destruct (Training.tasks s1 !! tid) as [[req i]|]; [|done]. simplify_eq.
    eexists. split; [reflexivity|]. simpl.
    unfold Training.train_model_resume, Training.loop_head,
      Training.on_exception.
    rewrite <- Hj.
    destruct (Training.jobs s1 !! tid) as [j|] eqn:E; rewrite ?E.
    + rewrite !lookup_insert_eq. job_cases; written; done.
    + simpl. split; [etrans; [exact E|exact Hj]|by rewrite !lookup_delete_eq].
  - rewrite <- Ht.
    destruct (Training.tasks s1 !! tid) as [[req i]|]; [|done]. simplify_eq.
    eexists. split; [reflexivity|]. simpl.
    unfold Training.on_exception. rewrite <- Hj.
    destruct (Training.jobs s1 !! tid) as [j|] eqn:E; rewrite ?E; written.
    + done.
    + split; [etrans; [exact E|exact Hj]|done].
  - simplify_eq. eexists. split; [reflexivity|]. simpl.
    split; [|done]. unfold Training.cancel_training. rewrite <- Hj.
    destruct (Training.jobs s1 !! tid) as [j|] eqn:E; rewrite ?E.
    + job_cases; simpl; rewrite ?lookup_insert_eq, ?E, <- ?Hj, ?E; done.
    + simpl. etrans; [exact E|exact Hj].
Qed.

Lemma train_run_local evs : ∀ s1 s2 s1' id,
  Training.jobs s1 !! id = Training.jobs s2 !! id →
  Training.tasks s1 !! id = Training.tasks s2 !! id →
  Training.run evs s1 = Some s1' →
  ∃ s2', Training.run (TrainingRun.events_of id evs) s2 = Some s2' ∧
         Training.jobs s1' !! id = Training.jobs s2' !! id ∧
         Training.tasks s1' !! id = Training.tasks s2' !! id.
Proof.
  induction evs as [|e evs IH]; intros s1 s2 s1' id Hj Ht Hr; simpl in Hr.
  - simplify_eq. by exists s2.
  - destruct (Training.step e s1) as [s1n|] eqn:Es; [|done].
    unfold TrainingRun.events_of. rewrite filter_cons.
    destruct (decide (Training.target e = id)) as [<-|Hne].
    + destruct (train_step_local _ _ _ _ Hj Ht Es) as (s2n & Es2 & Hj' & Ht').
      simpl. rewrite Es2. by apply (IH s1n s2n).
    + destruct (TrainingFacts.train_step_frame _ _ _ id Es ltac:(done))
        as [Ej Et].
      apply (IH s1n s2); [by rewrite Ej|by rewrite Et|done].
Qed.

Lemma opt_step_local e s1 s2 s1' :
  Optimization.jobs s1 !! Optimization.target e
  = Optimization.jobs s2 !! Optimization.target e →
  Optimization.tasks s1 !! Optimization.target e
  = Optimization.tasks s2 !! Optimization.target e →
  Optimization.step e s1 = Some s1' →
  ∃ s2', Optimization.step e s2 = Some s2' ∧
         Optimization.jobs s1' !! Optimization.target e
         = Optimization.jobs s2' !! Optimization.target e ∧
         Optimization.tasks s1' !! Optimization.target e
         = Optimization.tasks s2' !! Optimization.target e.
Proof.
  intros Hj Ht Hs.
  destruct e as [t1 t2 tid req|now tid|tid msg|tid]; simpl in *.
  - rewrite <- Hj, <- Ht.
    destruct (Optimization.jobs s1 !! tid); [done|].
    destruct (Optimization.tasks s1 !! tid); [done|]. simplify_eq.
    eexists. split; [reflexivity|]. simpl.
    unfold Optimization.optimize_module_start, Optimization.loop_head.
    rewrite !lookup_insert_eq.
    job_cases; written; done.
  - rewrite <- Ht.
    destruct (Optimization.tasks s1 !! tid) as [[req i]|]; [|done].
    simplify_eq.
    eexists. split; [reflexivity|]. simpl.
    unfold Optimization.optimize_module_resume, Optimization.loop_head,
      Optimization.on_exception.
    rewrite <- Hj.
    destruct (Optimization.jobs s1 !! tid) as [j|] eqn:E; rewrite ?E.
    + rewrite !lookup_insert_eq. job_cases; written; done.
    + simpl. split; [etrans; [exact E|exact Hj]|by rewrite !lookup_delete_eq].
  - rewrite <- Ht.
    destruct (Optimization.tasks s1 !! tid) as [[req i]|]; [|done].
    simplify_eq.
    eexists. split; [reflexivity|]. simpl.
    unfold Optimization.on_exception. rewrite <- Hj.
    destruct (Optimization.jobs s1 !! tid) as [j|] eqn:E; rewrite ?E; written.
    + done.
    + split; [etrans; [exact E|exact Hj]|done].
  - simplify_eq. eexists. split; [reflexivity|]. simpl.
    split; [|done]. unfold Optimization.cancel_optimization. rewrite <- Hj.
    destruct (Optimization.jobs s1 !! tid) as [j|] eqn:E; rewrite ?E.
    + job_cases; simpl; rewrite ?lookup_insert_eq, ?E, <- ?Hj, ?E; done.
    + simpl. etrans; [exact E|exact Hj].
Qed.

Lemma opt_run_local evs : ∀ s1 s2 s1' id,
  Optimization.jobs s1 !! id = Optimization.jobs s2 !! id →
  Optimization.tasks s1 !! id = Optimization.tasks s2 !! id →
  Optimization.run evs s1 = Some s1' →
  ∃ s2', Optimization.run (OptimizationRun.events_of id evs) s2 = Some s2' ∧
         Optimization.jobs s1' !! id = Optimization.jobs s2' !! id ∧
         Optimization.tasks s1' !! id = Optimization.tasks s2' !! id.
Proof.
  induction evs as [|e evs IH]; intros s1 s2 s1' id Hj Ht Hr; simpl in Hr.
  - simplify_eq. by exists s2.
  - destruct (Optimization.step e s1) as [s1n|] eqn:Es; [|done].
    unfold OptimizationRun.events_of. rewrite filter_cons.
    destruct (decide (Optimization.target e = id)) as [<-|Hne].
    + destruct (opt_step_local _ _ _ _ Hj Ht Es) as (s2n & Es2 & Hj' & Ht').
      simpl. rewrite Es2. by apply (IH s1n s2n).
    + destruct (OptimizationFacts.opt_step_frame _ _ _ id Es ltac:(done))
        as [Ej Et].
      apply (IH s1n s2); [by rewrite Ej|by rewrite Et|done].
Qed.

End IsolationFacts.

Section Isolation.

(** X15. Training jobs do not interfere. Whatever a schedule does to other
    jobs, the record and the coroutine of a job at its end are those
    obtained by running only the events addressed to that job, from the same
    initial state; so is what [get_training_progress] reports. *)
Theorem X15_training_jobs_are_isolated
    (evs : list Training.Event) (s0 s : Training.Sys) (id : string) :
  Training.run evs s0 = Some s →
  ∃ s', Training.run (TrainingRun.events_of id evs) s0 = Some s' ∧
        Training.jobs s' !! id = Training.jobs s !! id ∧
        Training.tasks s' !! id = Training.tasks s !! id ∧
        Training.get_training_progress id (Training.jobs s')
        = Training.get_training_progress id (Training.jobs s).
Proof.
  intros Hr.
  destruct (IsolationFacts.train_run_local evs s0 s0 s id eq_refl eq_refl Hr)
    as (s' & Hr' & Hj & Ht).
  exists s'. split; [done|]. split; [done|]. split; [done|].
  unfold Training.get_training_progress. by rewrite Hj.
Qed.

(** X16. Optimization jobs do not interfere: the record, the coroutine,
    the progress read and the results of a job at the end of a schedule are
    those obtained by running only the events addressed to that job. *)
Theorem X16_optimization_jobs_are_isolated
    (evs : list Optimization.Event) (s0 s : Optimization.Sys) (id : string) :
  Optimization.run evs s0 = Some s →
  ∃ s', Optimization.run (OptimizationRun.events_of id evs) s0 = Some s' ∧
        Optimization.jobs s' !! id = Optimization.jobs s !! id ∧
        Optimization.tasks s' !! id = Optimization.tasks s !! id ∧
        Optimization.get_optimization_progress id (Optimization.jobs s')
        = Optimization.get_optimization_progress id (Optimization.jobs s) ∧
        Optimization.get_optimization_results id (Optimization.jobs s')
        = Optimization.get_optimization_results id (Optimization.jobs s).
Proof.
  intros Hr.
  destruct (IsolationFacts.opt_run_local evs s0 s0 s id eq_refl eq_refl Hr)
    as (s' & Hr' & Hj & Ht).
  exists s'. split; [done|]. split; [done|]. split; [done|].
  unfold Optimization.get_optimization_progress,
    Optimization.get_optimization_results. by rewrite Hj.
Qed.
End Isolation.

(** X15 on two interleaved jobs, one of them cancelled. *)
Lemma X15_witness :
  ∃ s s',
    Training.run
      [Training.Start 0 0 "a" (Training.sample_request 3);
       Training.Start 1 1 "b" (Training.sample_request 2);
       Training.Wake 2 "a"; Training.Cancel "b"; Training.Wake 3 "b";
       Training.Wake 4 "a"] Training.init = Some s ∧
    Training.run
      [Training.Start 0 0 "a" (Training.sample_request 3);
       Training.Wake 2 "a"; Training.Wake 4 "a"] Training.init = Some s' ∧
    Training.jobs s' !! "a" = Training.jobs s !! "a".
Proof.
  eexists _.
  destruct (X15_training_jobs_are_isolated
    [Training.Start 0 0 "a" (Training.sample_request 3);
     Training.Start 1 1 "b" (Training.sample_request 2);
     Training.Wake 2 "a"; Training.Cancel "b"; Training.Wake 3 "b";
     Training.Wake 4 "a"] Training.init _ "a" eq_refl)
    as (s' & H1 & H2 & _).
  exists s'. split; [reflexivity|]. split; [exact H1|exact H2].
Defined.

(** X16 on two interleaved jobs, one of them cancelled. *)
Lemma X16_witness :
  ∃ s s',
    Optimization.run
      [Optimization.Start 0 0 "a" (Optimization.sample_request 3);
       Optimization.Start 1 1 "b" (Optimization.sample_request 2);
       Optimization.Wake 2 "a"; Optimization.Cancel "b";
       Optimization.Wake 3 "b"; Optimization.Wake 4 "a"]
      Optimization.init = Some s ∧
    Optimization.run
      [Optimization.Start 0 0 "a" (Optimization.sample_request 3);
       Optimization.Wake 2 "a"; Optimization.Wake 4 "a"]
      Optimization.init = Some s' ∧
    Optimization.jobs s' !! "a" = Optimization.jobs s !! "a".
Proof.
  eexists _.
  destruct (X16_optimization_jobs_are_isolated
    [Optimization.Start 0 0 "a" (Optimization.sample_request 3);
     Optimization.Start 1 1 "b" (Optimization.sample_request 2);
     Optimization.Wake 2 "a"; Optimization.Cancel "b";
     Optimization.Wake 3 "b"; Optimization.Wake 4 "a"]
    Optimization.init _ "a" eq_refl) as (s' & H1 & H2 & _).
  exists s'. split; [reflexivity|]. split; [exact H1|exact H2].
Defined.

Section Listings.

(** X17. In every reachable state [list_training_jobs] returns exactly one
    entry per job of the table (as many entries as jobs, no id twice, an id
    listed if and only if it is in the table), and each entry agrees with
    what [get_training_progress] reports for its id: same status, same
    epoch, same total. *)
Theorem X17_training_job_list
    (evs : list Training.Event) (s : Training.Sys) :
  Training.run evs Training.init = Some s →
  let l := Training.list_training_jobs (Training.jobs s) in
  length l = size (Training.jobs s) ∧
  NoDup (Training.i_training_id <$> l) ∧
  (∀ id, id ∈ (Training.i_training_id <$> l)
         ↔ is_Some (Training.jobs s !! id)) ∧
  (∀ info, info ∈ l →
     ∃ p, Training.get_training_progress (Training.i_training_id info)
            (Training.jobs s) = Some p ∧
          Training.p_status p = Training.i_status info ∧
          Training.p_epoch p = Training.i_current_epoch info ∧
          Training.p_total_epochs p = Training.i_total_epochs info).
Proof.
  intros Hr l. subst l. unfold Training.list_training_jobs.
  assert (Hids : ∀ m : gmap string Training.Job,
    Training.i_training_id <$>
      ((λ kv : string * Training.Job,
          {| Training.i_training_id := kv.1;
             Training.i_status := Training.status kv.2;
             Training.i_model_type := Training.model_type (Training.request kv.2);
             Training.i_start_time := Training.start_time kv.2;
             Training.i_progress := Training.progress kv.2;
             Training.i_current_epoch := default 0 (Training.current_epoch kv.2);
             Training.i_total_epochs := Training.epochs (Training.request kv.2) |})
       <$> map_to_list m) = (map_to_list m).*1).
  { intros m. rewrite <- list_fmap_compose. by apply list_fmap_ext. }
  rewrite Hids. split; [by rewrite length_fmap, length_map_to_list|].
  split; [apply NoDup_fst_map_to_list|]. split.
  - intros id. rewrite list_elem_of_fmap. split.
    + intros ([k j] & -> & Hin). apply elem_of_map_to_list in Hin. eauto.
    + intros [j Hj]. exists (id, j). split; [done|].
      by apply elem_of_map_to_list.
  - intros info Hin. apply list_elem_of_fmap in Hin as ([k j] & -> & Hin).
    apply elem_of_map_to_list in Hin. simpl.
    unfold Training.get_training_progress. rewrite Hin.
    eexists. split; [reflexivity|]. simpl.
    pose proof (TrainingFacts.train_reachable_inv _ _ Hr k) as Hi.
    rewrite Hin in Hi. simpl in Hi. destruct Hi as (_ & _ & _ & He & _).
    by rewrite He.
Qed.

(** X18. In every reachable state [list_optimization_jobs] returns exactly
    one entry per job of the table, and each entry agrees with what
    [get_optimization_progress] reports for its id: same status and same
    best score. *)
Theorem X18_optimization_job_list
    (evs : list Optimization.Event) (s : Optimization.Sys) :
  Optimization.run evs Optimization.init = Some s →
  let l := Optimization.list_optimization_jobs (Optimization.jobs s) in
  length l = size (Optimization.jobs s) ∧
  NoDup (Optimization.i_optimization_id <$> l) ∧
  (∀ id, id ∈ (Optimization.i_optimization_id <$> l)
         ↔ is_Some (Optimization.jobs s !! id)) ∧
  (∀ info, info ∈ l →
     ∃ p, Optimization.get_optimization_progress
            (Optimization.i_optimization_id info) (Optimization.jobs s)
          = Some p ∧
          Optimization.p_status p = Optimization.i_status info ∧
          Optimization.p_best_score p = Optimization.i_best_score info).
Proof.
  intros Hr l. subst l. unfold Optimization.list_optimization_jobs.
  assert (Hids : ∀ m : gmap string Optimization.Job,
    Optimization.i_optimization_id <$>
      ((λ kv : string * Optimization.Job,
          {| Optimization.i_optimization_id := kv.1;
             Optimization.i_status := Optimization.status kv.2;
             Optimization.i_target_module :=
               Optimization.target_module (Optimization.request kv.2);
             Optimization.i_algorithm :=
               Optimization.optimization_algorithm (Optimization.request kv.2);
             Optimization.i_start_time := Optimization.start_time kv.2;
             Optimization.i_progress := Optimization.progress kv.2;
             Optimization.i_best_score := Optimization.best_score kv.2 |})
       <$> map_to_list m) = (map_to_list m).*1).
  { intros m. rewrite <- list_fmap_compose. by apply list_fmap_ext. }
  rewrite Hids. split; [by rewrite length_fmap, length_map_to_list|].
  split; [apply NoDup_fst_map_to_list|]. split.
  - intros id. rewrite list_elem_of_fmap. split.
    + intros ([k j] & -> & Hin). apply elem_of_map_to_list in Hin. eauto.
    + intros [j Hj]. exists (id, j). split; [done|].
      by apply elem_of_map_to_list.
  - intros info Hin. apply list_elem_of_fmap in Hin as ([k j] & -> & Hin).
    apply elem_of_map_to_list in Hin. simpl.
    unfold Optimization.get_optimization_progress. rewrite Hin.
    eexists. split; [reflexivity|]. simpl. split; [done|].
    destruct (OptimizationInvFacts.opt_scores_reachable _ _ Hr k j Hin)
      as (_ & Hb & Hh).
    unfold OptimizationRun.running_job in Hb, Hh.
    cbn [Optimization.best_score Optimization.history] in Hb, Hh.
    by rewrite Hb, <- Hh.
Qed.
End Listings.

(** X17 on a table of two jobs. *)
Lemma X17_witness :
  ∃ s, Training.run
         [Training.Start 0 0 "a" (Training.sample_request 3);
          Training.Start 1 1 "b" (Training.sample_request 2);
          Training.Wake 2 "a"] Training.init = Some s ∧
       length (Training.list_training_jobs (Training.jobs s))
       = size (Training.jobs s).
Proof.
  eexists. split; [reflexivity|].
  exact (proj1 (X17_training_job_list
    [Training.Start 0 0 "a" (Training.sample_request 3);
     Training.Start 1 1 "b" (Training.sample_request 2);
     Training.Wake 2 "a"] _ eq_refl)).
Defined.

(** X18 on a table of two jobs. *)
Lemma X18_witness :
  ∃ s, Optimization.run
         [Optimization.Start 0 0 "a" (Optimization.sample_request 3);
          Optimization.Start 1 1 "b" (Optimization.sample_request 2);
          Optimization.Wake 2 "a"] Optimization.init = Some s ∧
       length (Optimization.list_optimization_jobs (Optimization.jobs s))
       = size (Optimization.jobs s).
Proof.
  eexists. split; [reflexivity|].
  exact (proj1 (X18_optimization_job_list
    [Optimization.Start 0 0 "a" (Optimization.sample_request 3);
     Optimization.Start 1 1 "b" (Optimization.sample_request 2);
     Optimization.Wake 2 "a"] _ eq_refl)).
Defined.

Module TrainingValueFacts.
Import TrainingValues.

Lemma train_epochs_in_range_spec n (f : nat) : ∀ k k',
  epochs_in_range n k f = true → k ≤ k' < k + Z.of_nat f →
  metrics_in_range n k' = true.
Proof.
  induction f as [|f IH]; intros k k' Hall Hk; [lia|].
  cbn [epochs_in_range] in Hall. apply andb_prop in Hall as [H1 H2].
  destruct (decide (k' = k)) as [->|Hne]; [done|].
  apply (IH (k + 1)); [done|lia].
Qed.

(** All 100 values of [epochs] the request model admits are evaluated. *)
Lemma train_all_values_ok : forallb values_ok (seqZ 1 100) = true.
Proof. vm_compute. reflexivity. Qed.

Lemma train_values_ok n : 1 ≤ n ≤ 100 → values_ok n = true.
Proof.
  intros Hn. pose proof train_all_values_ok as H.
  rewrite forallb_forall in H. apply H.
  apply list_elem_of_In, elem_of_seqZ. lia.
Qed.

End TrainingValueFacts.

Section TrainingValueRanges.
Import Training TrainingFacts TrainingRun TrainingInvFacts.
Import TrainingValues TrainingValueFacts.

(** X21. For a request within the bounds of the request model
    ([1 <= epochs <= 100]), in every reachable state the metrics of a job,
    once there are any, have an accuracy in (0, 0.9] and a loss in
    [0.19999999999999996, 1); a completed job has progress [== 1.0],
    accuracy [== 0.9], loss [== 0.19999999999999996] (not 0.2) and the
    epoch [n]. Comparisons are those of IEEE doubles. *)
Theorem X21_training_metrics_ranges
    (evs : list Event) (s : Sys) (id : string) (j : Job) :
  run evs init = Some s → jobs s !! id = Some j →
  1 ≤ epochs (request j) ≤ 100 →
  (∀ m, metrics j = Some m →
     PrimFloat.ltb 0 (accuracy m) = true ∧
     PrimFloat.leb (accuracy m) 0.9 = true ∧
     PrimFloat.leb 0.19999999999999996 (loss m) = true ∧
     PrimFloat.ltb (loss m) 1 = true) ∧
  (status j = Completed →
     PrimFloat.eqb (progress j) 1 = true ∧
     ∃ m, metrics j = Some m ∧ epoch m = epochs (request j) ∧
          PrimFloat.eqb (accuracy m) 0.9 = true ∧
          PrimFloat.eqb (loss m) 0.19999999999999996 = true).
Proof.
  intros Hr Hj Hn.
  pose proof (train_counters_reachable _ _ Hr id j Hj) as (Hp & Hm & Hc).
  pose proof (train_reachable_inv _ _ Hr id) as Hi. rewrite Hj in Hi.
  simpl in Hi. destruct Hi as (_ & _ & _ & _ & Hi).
  unfold running_job in Hp, Hm, Hc. simpl in Hp, Hm, Hc.
  pose proof (train_values_ok _ Hn) as Hok. unfold values_ok in Hok.
  apply andb_prop in Hok as [Hok Hloss]. apply andb_prop in Hok as [Hok Hacc].
  apply andb_prop in Hok as [Hall Hprog].
  assert (Hk : 0 ≤ epochs_done j ≤ epochs (request j)).
  { destruct (tasks s !! id) as [[req i]|].
    - destruct Hi as (<- & ? & ? & _). lia.
    - destruct Hi as (_ & ? & _). lia. }
  split.
  - intros m Hmm. rewrite Hmm in Hm.
    destruct (Z.eqb_spec (epochs_done j) 0) as [|Hne]; [done|].
    simplify_eq.
    pose proof (train_epochs_in_range_spec _ _ 1 (epochs_done j) Hall
                  ltac:(lia)) as Hin.
    unfold metrics_in_range in Hin.
    apply andb_prop in Hin as [Hin H4]. apply andb_prop in Hin as [Hin H3].
    apply andb_prop in Hin as [H1 H2]. done.
  - intros Hcomp.
    assert (Hfull : epochs_done j = epochs (request j)).
    { destruct (tasks s !! id) as [[req i]|].
      - destruct Hi as (_ & _ & _ & [?|?]); congruence.
      - destruct Hi as (_ & _ & Hd). rewrite (Hd Hcomp). lia. }
    rewrite Hfull in Hp, Hm.
    destruct (Z.eqb_spec (epochs (request j)) 0) as [|Hne]; [lia|].
    rewrite Hp. split; [exact Hprog|].
    eexists. split; [exact Hm|]. done.
Qed.
End TrainingValueRanges.

(** X21 on a job of two epochs run to completion. *)
Lemma X21_witness :
  ∃ s j, Training.run
           [Training.Start 0 0 "job" (Training.sample_request 2);
            Training.Wake 1 "job"; Training.Wake 2 "job"] Training.init
         = Some s ∧
         Training.jobs s !! "job" = Some j ∧
         1 ≤ Training.epochs (Training.request j) ≤ 100 ∧
         Training.status j = Completed ∧
         PrimFloat.eqb (Training.progress j) 1 = true.
Proof.
  eexists _, _. do 2 (split; [reflexivity|]).
  split; [simpl; lia|]. split; [reflexivity|].
  destruct (X21_training_metrics_ranges
    [Training.Start 0 0 "job" (Training.sample_request 2);
     Training.Wake 1 "job"; Training.Wake 2 "job"] _ "job" _
    eq_refl eq_refl ltac:(simpl; lia)) as [_ H].
  exact (proj1 (H eq_refl)).
Defined.

Section EvaluationMetric.
Import Dspy.

(** X22. The metric [evaluate_code_review] lies in [0, 1) for every
    prediction: it is 0 exactly when no attribute counts, it never reaches
    1.0 (a prediction with all four attributes scores 0.9999999999999999 in
    IEEE doubles), and a prediction with more attributes never scores
    less. *)
Theorem X22_evaluation_metric_bounds (p q : Prediction) :
  PrimFloat.leb 0 (evaluate_code_review p) = true ∧
  PrimFloat.ltb (evaluate_code_review p) 1 = true ∧
  (PrimFloat.eqb (evaluate_code_review p) 0 = true ↔
   present (summary p) = false ∧ present (feedback p) = false ∧
   present (score p) = false ∧ present (suggestions p) = false) ∧
  (present (summary p) = true → present (feedback p) = true →
   present (score p) = true → present (suggestions p) = true →
   PrimFloat.eqb (evaluate_code_review p) 0.9999999999999999 = true) ∧
  (no_less_complete p q →
   PrimFloat.leb (evaluate_code_review p) (evaluate_code_review q) = true).
Proof.
  unfold evaluate_code_review, no_less_complete.
  destruct (present (summary p)), (present (feedback p)),
    (present (score p)), (present (suggestions p)).
  all: split; [vm_compute; reflexivity|].
  all: split; [vm_compute; reflexivity|].
  all: split; [vm_compute; intuition congruence|].
  all: split; [try done; vm_compute; reflexivity|].
  all: destruct (present (summary q)), (present (feedback q)),
    (present (score q)), (present (suggestions q)); simpl.
  all: try (intros _; vm_compute; reflexivity).
  all: intros (H1 & H2 & H3 & H4); exfalso; tauto.
Qed.
End EvaluationMetric.

Module ComparisonFacts.
Import Comparison.

Lemma cmp_dict_set_keys {V} k (v : V) d :
  (dict_set k v d).*1 = if decide (k ∈ d.*1) then d.*1 else d.*1 ++ [k].
Proof.
  induction d as [|[k' v'] d IH].
  - destruct (decide (k ∈ ([] : list (string * V)).*1)) as [H|];
      [by apply elem_of_nil in H|done].
  - cbn [dict_set]. destruct (decide (k' = k)) as [->|Hne]; csimpl.
    + destruct (decide (k ∈ k :: d.*1)) as [|Hn]; [done|].
      destruct Hn. apply list_elem_of_here.
    + rewrite IH. destruct (decide (k ∈ d.*1)) as [Hin|Hnin].
      * destruct (decide (k ∈ k' :: d.*1)) as [|Hn]; [done|].
        destruct Hn. by apply list_elem_of_further.
      * destruct (decide (k ∈ k' :: d.*1)) as [Hin|]; [|done].
        apply elem_of_cons in Hin as [?|?]; congruence.
Qed.

Lemma cmp_dict_set_elem {V} k (v : V) d k0 v0 :
  (k0, v0) ∈ dict_set k v d → (k0, v0) ∈ d ∨ (k0 = k ∧ v0 = v).
Proof.
  induction d as [|[k' v'] d IH]; simpl.
  - intros ?%list_elem_of_singleton. right. by simplify_eq.
  - destruct (decide (k' = k)) as [->|Hne].
    + intros [?|?]%elem_of_cons; simplify_eq; [by right|].
      left. by apply list_elem_of_further.
    + intros [?|Hin]%elem_of_cons; simplify_eq.
      * left. apply list_elem_of_here.
      * destruct (IH Hin) as [?|?]; [|by right].
        left. by apply list_elem_of_further.
Qed.

Lemma cmp_dict_get_elem {V} k (d : list (string * V)) :
  k ∈ d.*1 → ∃ v, dict_get k d = Some v ∧ (k, v) ∈ d.
Proof.
  induction d as [|[k' v'] d IH]; simpl; [by intros ?%elem_of_nil|].
  intros Hin. destruct (decide (k' = k)) as [->|Hne].
  - exists v'. split; [done|]. apply list_elem_of_here.
  - apply elem_of_cons in Hin as [?|Hin]; [congruence|].
    destruct (IH Hin) as (v & Hv & Hel). exists v. split; [done|].
    by apply list_elem_of_further.
Qed.

Section WithHash.
Variable hash : string → Z.

(** What the loop of [compare_models] maintains. *)
Lemma cmp_fold_spec ms : ∀ d,
  NoDup d.*1 → (∀ k v, (k, v) ∈ d → v = model_scores hash k) →
  let r := fold_left (λ results model,
                        dict_set model (model_scores hash model) results)
                     ms d in
  NoDup r.*1 ∧ (∀ k v, (k, v) ∈ r → v = model_scores hash k) ∧
  (∀ k, k ∈ r.*1 ↔ k ∈ d.*1 ∨ k ∈ ms).
Proof.
  induction ms as [|m ms IH]; intros d Hnd Hval; simpl.
  - split; [done|]. split; [done|]. intros k. split; [by left|].
    intros [?|?%elem_of_nil]; done.
  - destruct (IH (dict_set m (model_scores hash m) d)) as (H1 & H2 & H3).
    + rewrite cmp_dict_set_keys. destruct (decide (m ∈ d.*1)); [done|].
      apply NoDup_app. split; [done|]. split.
      * intros x Hx ->%list_elem_of_singleton. done.
      * apply NoDup_singleton.
    + intros k v [Hin|[-> ->]]%cmp_dict_set_elem; [by apply Hval|done].
    + split; [done|]. split; [done|]. intros k. rewrite H3.
      rewrite cmp_dict_set_keys, elem_of_cons.
      destruct (decide (m ∈ d.*1)) as [Hin|Hnin].
      * split; [tauto|]. intros [?|[->|?]]; auto.
      * rewrite elem_of_app, list_elem_of_singleton. tauto.
Qed.

Lemma cmp_compare_models_spec ms :
  let r := compare_models hash ms in
  NoDup r.*1 ∧ (∀ k v, (k, v) ∈ r → v = model_scores hash k) ∧
  (∀ k, k ∈ r.*1 ↔ k ∈ ms).
Proof.
  destruct (cmp_fold_spec ms []) as (H1 & H2 & H3).
  - apply NoDup_nil_2.
  - by intros k v ?%elem_of_nil.
  - split; [done|]. split; [done|]. intros k. rewrite H3.
    split; [|by right]. intros [?%elem_of_nil|?]; done.
Qed.

End WithHash.

Lemma cmp_accuracy_order_ok : accuracy_order_ok = true.
Proof. vm_compute. reflexivity. Qed.

(** On the ten residues the accuracies are ordered like the residues. *)
Lemma cmp_accuracy_ltb r1 r2 :
  0 ≤ r1 < 10 → 0 ≤ r2 < 10 →
  PrimFloat.ltb (accuracy_of r1) (accuracy_of r2) = (r1 <? r2).
Proof.
  intros H1 H2. pose proof cmp_accuracy_order_ok as H.
  unfold accuracy_order_ok in H. rewrite forallb_forall in H.
  specialize (H r1). rewrite forallb_forall in H.
  apply Bool.eqb_prop, H; apply list_elem_of_In, elem_of_seqZ; lia.
Qed.

(** [max_by] returns an element of the sequence that no element exceeds. *)
Lemma cmp_max_by_spec (key : string → float) (res : string → Z) rest :
  ∀ first,
  (∀ k, k ∈ first :: rest → 0 ≤ res k < 10 ∧ key k = accuracy_of (res k)) →
  max_by key first rest ∈ first :: rest ∧
  ∀ k, k ∈ first :: rest → res k ≤ res (max_by key first rest).
Proof.
  unfold max_by. induction rest as [|y rest IH]; intros first Hkey; simpl.
  - split; [apply list_elem_of_here|].
    intros k ->%list_elem_of_singleton. lia.
  - destruct (Hkey first ltac:(apply list_elem_of_here)) as [Hf1 Hf2].
    destruct (Hkey y ltac:(apply list_elem_of_further, list_elem_of_here))
      as [Hy1 Hy2].
    rewrite Hf2, Hy2, cmp_accuracy_ltb by done.
    destruct (Z.ltb_spec (res first) (res y)).
    + destruct (IH y) as [G1 G2].
      { intros k Hk. apply Hkey. by apply list_elem_of_further. }
      split; [by apply list_elem_of_further|].
      intros k [->|Hk]%elem_of_cons; [|by apply G2].
      pose proof (G2 y ltac:(apply list_elem_of_here)). lia.
    + destruct (IH first) as [G1 G2].
      { intros k [->|Hk]%elem_of_cons; apply Hkey.
        - apply list_elem_of_here.
        - by do 2 apply list_elem_of_further. }
      split.
      * apply elem_of_cons in G1 as [->|G1]; [apply list_elem_of_here|].
        by do 2 apply list_elem_of_further.
      * intros k [->|[->|Hk]%elem_of_cons]%elem_of_cons.
        -- apply G2, list_elem_of_here.
        -- pose proof (G2 first ltac:(apply list_elem_of_here)). lia.
        -- by apply G2, list_elem_of_further.
Qed.

End ComparisonFacts.

Section ModelComparison.
Import Comparison ComparisonFacts.

(** X23. The model comparison endpoint, whatever the values of [hash]. An
    empty list of models is answered with a 500 ([max] of an empty
    sequence). For a non-empty list the answer is a comparison whose results
    hold each submitted model once with its mock scores, and whose winner
    is one of the submitted models, of maximal accuracy: no submitted model
    has an accuracy above the winner's. *)
Theorem X23_model_comparison_winner (hash : string → Z) (uuid : string)
    (ms metrics : list string) :
  (ms = [] →
   ∃ detail, compare_models_endpoint hash uuid ms metrics
             = HTTPException 500 detail) ∧
  (ms ≠ [] →
   ∃ c w, compare_models_endpoint hash uuid ms metrics = Ok c ∧
          winner c = Some w ∧ w ∈ ms ∧
          NoDup (comparison_results c).*1 ∧
          (∀ m, m ∈ (comparison_results c).*1 ↔ m ∈ ms) ∧
          (∀ m sc, (m, sc) ∈ comparison_results c →
                   sc = model_scores hash m) ∧
          (∀ m, m ∈ ms →
             PrimFloat.ltb (accuracy (model_scores hash w))
                           (accuracy (model_scores hash m)) = false)).
Proof.
  split.
  - intros ->. by eexists.
  - intros Hne. unfold compare_models_endpoint.
    pose proof (cmp_compare_models_spec hash ms) as (Hnd & Hval & Hkeys).
    destruct ((compare_models hash ms).*1) as [|first rest] eqn:Ek.
    { destruct ms as [|m ms]; [done|].
      pose proof (proj2 (Hkeys m) ltac:(apply list_elem_of_here)) as Hin.
      by apply elem_of_nil in Hin. }
    rewrite <- Ek in Hnd, Hkeys.
    destruct (cmp_max_by_spec
                (λ k, from_option accuracy 0%float
                        (dict_get k (compare_models hash ms)))
                (λ k, hash k `mod` 10) rest first) as [Hw Hmax].
    { intros k Hk. split; [by apply Z.mod_pos_bound|].
      rewrite <- Ek in Hk.
      destruct (cmp_dict_get_elem k _ Hk) as (v & -> & Hel).
      by rewrite (Hval _ _ Hel). }
    rewrite <- Ek in Hw, Hmax.
    eexists _, _. split; [reflexivity|]. cbn [winner comparison_results].
    split; [done|]. split; [by apply Hkeys|].
    split; [done|]. split; [done|]. split; [done|].
    intros m Hm. unfold model_scores. cbn [accuracy].
    rewrite cmp_accuracy_ltb by (by apply Z.mod_pos_bound).
    apply Z.ltb_ge, (Hmax m), Hkeys, Hm.
Qed.

End ModelComparison.
